(** * CBuilder: the project model, its code generator and the project builder

    A shallow embedding of [cbuilder.py].  Python [str] values are Rocq
    strings, [None]-able values are options, the lists of the entity model
    are Rocq lists, and the code that touches the operating system runs in a
    small state-and-exception monad over an explicit world (filesystem,
    working directory, module globals, standard output, project object). *)

From stdpp Require Import gmap strings list.
From Stdlib Require Import Ascii.

(** ** Python string primitives *)

Module Py.

Definition NL : ascii := "010"%char.
Definition TAB : ascii := "009"%char.
Definition DQUOTE : ascii := "034"%char.
Definition BACKSLASH : ascii := "092"%char.

(** Python string literals of the source are quoted through [lit], which
    reads the escapes [\n] and [\t] the way Python does; a double quote
    is written [\q]. *)
Fixpoint lit (s : string) : string :=
  match s with
  | EmptyString => EmptyString
  | String c r =>
      if Ascii.eqb c BACKSLASH then
        match r with
        | String "n"%char r' => String NL (lit r')
        | String "t"%char r' => String TAB (lit r')
        | String "q"%char r' => String DQUOTE (lit r')
        | _ => String c (lit r)
        end
      else String c (lit r)
  end.

(** [str(x)] for a value that may be [None]. *)
Definition str (x : option string) : string :=
  match x with
  | Some s => s
  | None => "None"
  end.

(** [s.replace(old, new)] for a non-empty [old]: left to right, without
    overlap.  [skip] counts the characters of a match still to drop. *)
Fixpoint replace_go (old new : string) (skip : nat) (s : string) : string :=
  match s with
  | EmptyString => EmptyString
  | String c s' =>
      match skip with
      | S k => replace_go old new k s'
      | O =>
          if String.prefix old s
          then new +:+ replace_go old new (String.length old - 1) s'
          else String c (replace_go old new 0 s')
      end
  end.

(** With an empty [old], Python puts [new] before every character and at
    the end. *)
Fixpoint replace_empty (new s : string) : string :=
  match s with
  | EmptyString => new
  | String c s' => new +:+ String c (replace_empty new s')
  end.

Definition replace (old new s : string) : string :=
  match old with
  | EmptyString => replace_empty new s
  | _ => replace_go old new 0 s
  end.

(** [s.split(sep)] for a one-character separator: the pieces between
    the separators, of which there is always at least one. *)
Fixpoint split (sep : ascii) (s : string) : list string :=
  match s with
  | EmptyString => [EmptyString]
  | String c s' =>
      if Ascii.eqb c sep then EmptyString :: split sep s'
      else match split sep s' with
           | piece :: pieces => String c piece :: pieces
           | [] => [String c EmptyString]
           end
  end.

(** [sep.join(l)]. *)
Fixpoint join (sep : string) (l : list string) : string :=
  match l with
  | [] => EmptyString
  | [x] => x
  | x :: l' => x +:+ sep +:+ join sep l'
  end.

(** [re.sub(r'[^...]', '', s)]: every character outside the class is
    dropped; [keep] is the class. *)
Fixpoint re_sub_outside (keep : ascii -> bool) (s : string) : string :=
  match s with
  | EmptyString => EmptyString
  | String c s' =>
      if keep c then String c (re_sub_outside keep s')
      else re_sub_outside keep s'
  end.

Definition in_range (lo hi c : ascii) : bool :=
  (nat_of_ascii lo <=? nat_of_ascii c)%nat && (nat_of_ascii c <=? nat_of_ascii hi)%nat.

(** Every character of [s] satisfies [P]. *)
Fixpoint all_chars (P : ascii -> bool) (s : string) : bool :=
  match s with
  | EmptyString => true
  | String c s' => P c && all_chars P s'
  end.

End Py.

(** ** Name sanitization (the menu handlers, lines 373-374 and alike) *)

(** The class [[a-zA-Z0-9_]]. *)
Definition is_name_char (c : ascii) : bool :=
  Py.in_range "a" "z" c || Py.in_range "A" "Z" c || Py.in_range "0" "9" c
  || Ascii.eqb c "_".

(** [raw.replace(' ', '_')], then [re.sub(r'[^a-zA-Z0-9_]', '', ...)]. *)
Definition sanitize (raw : string) : string :=
  let name := Py.replace " " "_" raw in
  Py.re_sub_outside is_name_char name.

(** ** Results of fallible operations *)

Inductive exn : Type :=
| FileNotFoundError
| NotADirectoryError
| FileExistsError
| IsADirectoryError
| ValueError.

Inductive result (A : Type) : Type :=
| Ok (a : A)
| Raise (e : exn).

Arguments Ok {A} a.
Arguments Raise {A} e.

(** [l.remove(x)]: drops the first element equal to [x], and raises
    [ValueError] when there is none. *)
Fixpoint list_remove {A : Type} `{EqDecision A} (x : A) (l : list A) : result (list A) :=
  match l with
  | [] => Raise ValueError
  | y :: l' =>
      if decide (y = x) then Ok l'
      else match list_remove x l' with
           | Ok r => Ok (y :: r)
           | Raise e => Raise e
           end
  end.

(** ** The entity model *)

Definition PRAGMA_ONCE_DEFINITION : string := Py.lit "#pragma once\n".

Module CFunction.

Record t : Type := { name : string; description : option string }.

Definition init (name : string) (description : option string) : t :=
  {| name := name; description := description |}.

#[global] Instance eq_dec : EqDecision t.
Proof. solve_decision. Defined.

End CFunction.

Module CClass.

Record t : Type := {
  name : string;
  public_functions : list CFunction.t;
  private_functions : list CFunction.t;
  public_variables : list string;
  private_variables : list string
}.

Definition init (name : string) : t :=
  {| name := name;
     public_functions := [];
     private_functions := [];
     public_variables := [];
     private_variables := [] |}.

#[global] Instance eq_dec : EqDecision t.
Proof. solve_decision. Defined.

(** [__get_header_function_declaration] *)
Definition get_header_function_declaration (self : t) (fn : CFunction.t) : string :=
  let result := "" in
  let result :=
    match CFunction.description fn with
    | Some description =>
        result +:+ Py.lit "\t\t/*\n\t\t\t"
               +:+ Py.replace (Py.lit "\n") (Py.lit "\n\t\t\t") description
               +:+ Py.lit "\n\t\t*/\n"
    | None => result
    end in
  let result := result +:+ Py.lit "\t\tvoid " +:+ CFunction.name fn +:+ Py.lit "();\n" in
  let result :=
    match CFunction.description fn with
    | Some _ => result +:+ Py.lit "\n"
    | None => result
    end in
  result.

(** The text that [__generate_header_file] writes: [f] accumulates the
    [f.write] calls in order; the two globals are read by the namespace
    line. *)
Definition header_text (g_project_name g_current_module : option string) (self : t) : string :=
  let f := "" in
  let f := f +:+ PRAGMA_ONCE_DEFINITION in
  let f := f +:+ Py.lit "\nnamespace " +:+ Py.str g_project_name +:+ "::"
             +:+ Py.str g_current_module +:+ Py.lit "\n{\n" in
  let f := f +:+ Py.lit "\tclass " +:+ name self +:+ Py.lit "\n" in
  let f := f +:+ Py.lit "\t{" in
  let f :=
    if (0 <? length (public_functions self))%nat then
      let f := f +:+ Py.lit "\n" in
      let f := f +:+ Py.lit "\tpublic:\n" in
      fold_left (fun f fn => f +:+ get_header_function_declaration self fn)
                (public_functions self) f
    else f in
  let f :=
    if (0 <? length (public_variables self))%nat then
      let f := f +:+ Py.lit "\n" in
      let f := f +:+ Py.lit "\tpublic:\n" in
      fold_left (fun f var => f +:+ Py.lit "\t\t" +:+ var +:+ Py.lit ";\n")
                (public_variables self) f
    else f in
  let f :=
    if (0 <? length (private_functions self))%nat then
      let f := f +:+ Py.lit "\n" in
      let f := f +:+ Py.lit "\tprivate:\n" in
      fold_left (fun f fn => f +:+ get_header_function_declaration self fn)
                (public_functions self) f
    else f in
  let f :=
    if (0 <? length (private_variables self))%nat then
      let f := f +:+ Py.lit "\n" in
      let f := f +:+ Py.lit "\tprivate:\n" in
      fold_left (fun f var => f +:+ Py.lit "\t\t" +:+ var +:+ Py.lit ";\n")
                (public_variables self) f
    else f in
  let f := f +:+ Py.lit "\n" in
  let f := f +:+ Py.lit "\t};\n" in
  let f := f +:+ Py.lit "}\n" in
  f.

(** The text that [__generate_source_file] writes. *)
Definition source_text (g_project_name g_current_module : option string) (self : t) : string :=
  let f := "" in
  let f := f +:+ Py.lit "#include \q" +:+ (name self +:+ ".h") +:+ Py.lit "\q\n\n" in
  let f := f +:+ "namespace " +:+ Py.str g_project_name +:+ "::"
             +:+ Py.str g_current_module +:+ Py.lit "\n{\n" in
  let f := f +:+ Py.lit "}\n" in
  f.

End CClass.

Module CModule.

Record t : Type := { name : string; classes : list CClass.t }.

Definition init (name : string) : t := {| name := name; classes := [] |}.

#[global] Instance eq_dec : EqDecision t.
Proof. solve_decision. Defined.

(** The loop of [get_class] over the remaining classes. *)
Fixpoint get_class_loop (rest : list CClass.t) (name : string) : option CClass.t :=
  match rest with
  | [] => None
  | cppclass :: rest' =>
      if String.eqb (CClass.name cppclass) name then Some cppclass
      else get_class_loop rest' name
  end.

Definition get_class (self : t) (name : string) : option CClass.t :=
  get_class_loop (classes self) name.

(** The loop of [remove_class]: [rest] is what the iteration has still to
    visit, [all] is [self.classes].  The classes define no [__eq__], so
    [remove] compares objects by identity; the object at hand is an
    element of the list, and an equal record stands for it here. *)
Fixpoint remove_class_loop (rest all : list CClass.t) (name : string)
  : result (list CClass.t) :=
  match rest with
  | [] => Ok all
  | cppclass :: rest' =>
      if String.eqb (CClass.name cppclass) name then list_remove cppclass all
      else remove_class_loop rest' all name
  end.

Definition remove_class (self : t) (name : string) : result t :=
  match remove_class_loop (classes self) (classes self) name with
  | Ok l => Ok {| name := CModule.name self; classes := l |}
  | Raise e => Raise e
  end.

End CModule.

Module CProject.

Record t : Type := {
  name : string;
  cppnamespace : string;
  modules : list CModule.t
}.

(** [CProject(name, cppnamespace)]; an omitted [cppnamespace] is [''] . *)
Definition init (name : string) (cppnamespace : string) : t :=
  {| name := name;
     cppnamespace :=
       if (0 <? String.length cppnamespace)%nat then cppnamespace else name;
     modules := [] |}.

#[global] Instance eq_dec : EqDecision t.
Proof. solve_decision. Defined.

Fixpoint get_module_loop (rest : list CModule.t) (name : string) : option CModule.t :=
  match rest with
  | [] => None
  | mod_ :: rest' =>
      if String.eqb (CModule.name mod_) name then Some mod_
      else get_module_loop rest' name
  end.

Definition get_module (self : t) (name : string) : option CModule.t :=
  get_module_loop (modules self) name.

Fixpoint remove_module_loop (rest all : list CModule.t) (name : string)
  : result (list CModule.t) :=
  match rest with
  | [] => Ok all
  | mod_ :: rest' =>
      if String.eqb (CModule.name mod_) name then list_remove mod_ all
      else remove_module_loop rest' all name
  end.

Definition remove_module (self : t) (name : string) : result t :=
  match remove_module_loop (modules self) (modules self) name with
  | Ok l => Ok {| name := CProject.name self;
                  cppnamespace := cppnamespace self;
                  modules := l |}
  | Raise e => Raise e
  end.

End CProject.

(** ** The world the builder runs in

    A POSIX filesystem without links or permissions: a finite map from
    absolute paths (the component names from the root, which is always a
    directory) to nodes; the process has a working directory, the module
    has its two globals, and [print] appends a line to the standard output.
    The project object of the session, with the tree it owns, is part of the
    world. *)

Abbreviation path := (list string).

Inductive node : Type :=
| Dir
| File (content : string).

Record World : Type := {
  fs : gmap path node;
  cwd : path;
  g_project_name : option string;
  g_current_module : option string;
  stdout : list string;
  project : CProject.t
}.

Definition with_fs (m : gmap path node) (w : World) : World :=
  {| fs := m; cwd := cwd w; g_project_name := g_project_name w;
     g_current_module := g_current_module w; stdout := stdout w;
     project := project w |}.

Definition with_cwd (p : path) (w : World) : World :=
  {| fs := fs w; cwd := p; g_project_name := g_project_name w;
     g_current_module := g_current_module w; stdout := stdout w;
     project := project w |}.

Definition with_g_project_name (v : option string) (w : World) : World :=
  {| fs := fs w; cwd := cwd w; g_project_name := v;
     g_current_module := g_current_module w; stdout := stdout w;
     project := project w |}.

Definition with_g_current_module (v : option string) (w : World) : World :=
  {| fs := fs w; cwd := cwd w; g_project_name := g_project_name w;
     g_current_module := v; stdout := stdout w;
     project := project w |}.

Definition with_stdout (l : list string) (w : World) : World :=
  {| fs := fs w; cwd := cwd w; g_project_name := g_project_name w;
     g_current_module := g_current_module w; stdout := l;
     project := project w |}.

(** *** Paths

    Path strings are read the POSIX way: components between slashes, a
    leading slash for the root.  Links, permissions and NUL characters are
    left out. *)

Module Os.

Definition node_at (m : gmap path node) (p : path) : option node :=
  match p with
  | [] => Some Dir
  | _ => m !! p
  end.

(** One component of a path string: empty and [.] stay, [..] goes up
    (the root is its own parent), a name goes down. *)
Definition dot_step (cur : path) (c : string) : path :=
  if String.eqb c "" || String.eqb c "." then cur
  else if String.eqb c ".." then removelast cur
  else cur ++ [c].

(** One component of a path that [abspath] has resolved: a name. *)
Definition name_step (cur : path) (c : string) : path := cur ++ [c].

(** The kernel's walk: every directory on the way must exist; the node
    reached is not looked at. *)
Fixpoint namei (step : path -> string -> path) (m : gmap path node)
    (cur : path) (comps : list string) : result path :=
  match comps with
  | [] => Ok cur
  | c :: rest =>
      match node_at m cur with
      | Some Dir => namei step m (step cur c) rest
      | Some (File _) => Raise NotADirectoryError
      | None => Raise FileNotFoundError
      end
  end.

Definition is_absolute (s : string) : bool := String.prefix "/" s.

Definition start (cwd : path) (s : string) : path :=
  if is_absolute s then [] else cwd.

(** A path argument: a [str] as the caller wrote it, or the value of
    [os.path.abspath], kept as its components. *)
Inductive pypath : Type :=
| Str (s : string)
| Abs (p : path).

Definition locate (m : gmap path node) (cwd : path) (a : pypath) : result path :=
  match a with
  | Abs p => namei name_step m [] p
  | Str s =>
      if String.eqb s "" then Raise FileNotFoundError
      else namei dot_step m (start cwd s) (Py.split "/" s)
  end.

(** [os.path.abspath]: [normpath(join(getcwd(), s))], on the text alone. *)
Definition abspath (cwd : path) (s : string) : path :=
  fold_left dot_step (Py.split "/" s) (start cwd s).

Definition isdir (m : gmap path node) (cwd : path) (a : pypath) : bool :=
  match locate m cwd a with
  | Ok q => match node_at m q with
            | Some Dir => true
            | _ => false
            end
  | Raise _ => false
  end.

(** [mkdir] accepts trailing slashes. *)
Fixpoint strip_trailing (l : list string) : list string :=
  match l with
  | [] => []
  | c :: l' =>
      match strip_trailing l' with
      | [] => if String.eqb c "" then [] else [c]
      | r => c :: r
      end
  end.

End Os.

(** *** The monad: state and exceptions *)

Definition M (A : Type) : Type := World -> result A * World.

#[global] Instance M_ret : MRet M := fun A a w => (Ok a, w).

#[global] Instance M_bind : MBind M := fun A B k m w =>
  match m w with
  | (Ok a, w') => k a w'
  | (Raise e, w') => (Raise e, w')
  end.

(** [for x in l: body(x)] over a list the body does not change. *)
Fixpoint for_each {A : Type} (l : list A) (body : A -> M unit) : M unit :=
  match l with
  | [] => mret tt
  | x :: l' => body x ;; for_each l' body
  end.

Definition get_self : M CProject.t := fun w => (Ok (project w), w).
Definition get_g_project_name : M (option string) := fun w => (Ok (g_project_name w), w).
Definition get_g_current_module : M (option string) := fun w => (Ok (g_current_module w), w).
Definition set_g_project_name (v : option string) : M unit :=
  fun w => (Ok tt, with_g_project_name v w).
Definition set_g_current_module (v : option string) : M unit :=
  fun w => (Ok tt, with_g_current_module v w).

Definition print (line : string) : M unit :=
  fun w => (Ok tt, with_stdout (stdout w ++ [line]) w).

Definition os_path_abspath (s : string) : M path :=
  fun w => (Ok (Os.abspath (cwd w) s), w).

Definition os_path_isdir (a : Os.pypath) : M bool :=
  fun w => (Ok (Os.isdir (fs w) (cwd w) a), w).

Definition os_chdir (a : Os.pypath) : M unit := fun w =>
  match Os.locate (fs w) (cwd w) a with
  | Ok q =>
      match Os.node_at (fs w) q with
      | Some Dir => (Ok tt, with_cwd q w)
      | Some (File _) => (Raise NotADirectoryError, w)
      | None => (Raise FileNotFoundError, w)
      end
  | Raise e => (Raise e, w)
  end.

Definition os_mkdir (s : string) : M unit := fun w =>
  if String.eqb s "" then (Raise FileNotFoundError, w)
  else
    match Os.namei Os.dot_step (fs w) (Os.start (cwd w) s)
                   (Os.strip_trailing (Py.split "/" s)) with
    | Ok q =>
        match Os.node_at (fs w) q with
        | Some _ => (Raise FileExistsError, w)
        | None => (Ok tt, with_fs (<[q := Dir]> (fs w)) w)
        end
    | Raise e => (Raise e, w)
    end.

(** [with open(name, 'w') as f:] followed by writes that amount to [text]:
    the file is created or truncated, and holds [text] when it is closed. *)
Definition with_open_w (name : string) (text : string) : M unit := fun w =>
  match Os.locate (fs w) (cwd w) (Os.Str name) with
  | Ok q =>
      match Os.node_at (fs w) q with
      | Some Dir => (Raise IsADirectoryError, w)
      | _ => (Ok tt, with_fs (<[q := File text]> (fs w)) w)
      end
  | Raise e => (Raise e, w)
  end.

(** ** Generation *)

(** [CClass.__generate_header_file] *)
Definition generate_header_file (self : CClass.t) : M unit :=
  g_project_name ← get_g_project_name;
  g_current_module ← get_g_current_module;
  with_open_w (CClass.name self +:+ ".h")
              (CClass.header_text g_project_name g_current_module self).

(** [CClass.__generate_source_file] *)
Definition generate_source_file (self : CClass.t) : M unit :=
  g_project_name ← get_g_project_name;
  g_current_module ← get_g_current_module;
  with_open_w (CClass.name self +:+ ".cpp")
              (CClass.source_text g_project_name g_current_module self).

(** [CClass.generate_class_files] *)
Definition generate_class_files (self : CClass.t) : M unit :=
  generate_header_file self ;;
  generate_source_file self.

(** [CModule.generate_cpp_source_files] *)
Definition generate_cpp_source_files (self : CModule.t) : M unit :=
  set_g_current_module (Some (CModule.name self)) ;;
  os_mkdir (CModule.name self) ;;
  os_chdir (Os.Str (CModule.name self)) ;;
  for_each (CModule.classes self) (fun cppclass => generate_class_files cppclass) ;;
  os_chdir (Os.Str "..") ;;
  set_g_current_module None.

(** [CProject.__generate_source_files] *)
Definition generate_source_files (self : CProject.t) : M unit :=
  for_each (CProject.modules self) (fun mod_ => generate_cpp_source_files mod_).

(** [CProject.__generate_cmake_file] *)
Definition generate_cmake_file (self : CProject.t) : M unit := mret tt.

(** [CProject.generate_project], run on the project object of the world. *)
Definition generate_project (target_dir : string) : M unit :=
  self ← get_self;
  set_g_project_name (Some (CProject.name self)) ;;
  target_dir ← os_path_abspath target_dir;
  target_is_dir ← os_path_isdir (Os.Abs target_dir);
  if negb target_is_dir then
    print "Error> target directory does not exist"
  else
    (os_chdir (Os.Abs target_dir) ;;
     project_is_dir ← os_path_isdir (Os.Str (CProject.name self));
     if (project_is_dir : bool) then
       print "Error> project directory already exists"
     else
       (os_mkdir (CProject.name self) ;;
        os_chdir (Os.Str (CProject.name self)) ;;
        generate_source_files self ;;
        generate_cmake_file self : M unit) : M unit).

(** ** Vocabulary for the builder's properties *)

(** A name that is one path component: not empty, not [.] or [..], and
    without a slash.  Every non-empty sanitized name is one. *)
Definition plain_name (s : string) : bool :=
  negb (String.eqb s "") && negb (String.eqb s ".") && negb (String.eqb s "..")
  && Py.all_chars (fun c => negb (Ascii.eqb c "/")) s.

(** A computation that leaves the project object as it found it, whatever
    it returns or raises. *)
Definition keeps_project {A : Type} (m : M A) : Prop :=
  forall w : World, project (m w).2 = project w.

(** The world in which [generate_project] reports a missing target. *)
Definition after_target_missing (w : World) : World :=
  with_stdout (stdout w ++ ["Error> target directory does not exist"])
    (with_g_project_name (Some (CProject.name (project w))) w).

(** The world in which [generate_project] reports an existing project
    directory inside [target]. *)
Definition after_already_exists (target : path) (w : World) : World :=
  with_stdout (stdout w ++ ["Error> project directory already exists"])
    (with_cwd target
       (with_g_project_name (Some (CProject.name (project w))) w)).

(** ** A small project and two worlds

    [CProject('demo', 'ns')] with the module [core] and its class [Engine];
    a process in [/home] with an empty directory [/home/out], and the same
    with [/home/out/demo] already there. *)

Module Example.

Definition engine : CClass.t :=
  {| CClass.name := "Engine";
     CClass.public_functions := [CFunction.init "run" None];
     CClass.private_functions := [];
     CClass.public_variables := [];
     CClass.private_variables := [] |}.

Definition core : CModule.t :=
  {| CModule.name := "core"; CModule.classes := [engine] |}.

Definition demo : CProject.t :=
  let p := CProject.init "demo" "ns" in
  {| CProject.name := CProject.name p;
     CProject.cppnamespace := CProject.cppnamespace p;
     CProject.modules := CProject.modules p ++ [core] |}.

Definition home : World :=
  {| fs := {[ ["home"] := Dir; ["home"; "out"] := Dir ]};
     cwd := ["home"];
     g_project_name := None;
     g_current_module := None;
     stdout := [];
     project := demo |}.

Definition home_with_demo : World :=
  with_fs (<[ ["home"; "out"; "demo"] := Dir ]> (fs home)) home.

End Example.

(** ** The parts of the generated text

    The vocabulary of the generation contract: what a loop of writes
    amounts to, the namespace line, the head of a header and its access
    sections.  The theorems compare the text the code writes with these. *)

Module Layout.

(** The text of one write per element, in order. *)
Fixpoint text_of {A : Type} (line : A -> string) (l : list A) : string :=
  match l with
  | [] => ""
  | x :: l' => line x +:+ text_of line l'
  end.

Definition namespace_open (scope module_name : option string) : string :=
  "namespace " +:+ Py.str scope +:+ "::" +:+ Py.str module_name +:+ Py.lit "\n{\n".

Definition class_open (c : CClass.t) : string :=
  Py.lit "\tclass " +:+ CClass.name c +:+ Py.lit "\n\t{".

Definition head (scope module_name : option string) (c : CClass.t) : string :=
  PRAGMA_ONCE_DEFINITION +:+ Py.lit "\n" +:+ namespace_open scope module_name
    +:+ class_open c.

Definition declarations (c : CClass.t) (fns : list CFunction.t) : string :=
  text_of (CClass.get_header_function_declaration c) fns.

Definition variable_lines (vars : list string) : string :=
  text_of (fun var => Py.lit "\t\t" +:+ var +:+ Py.lit ";\n") vars.

Definition public_marker : string := Py.lit "\n\tpublic:\n".
Definition private_marker : string := Py.lit "\n\tprivate:\n".
Definition tail : string := Py.lit "\n\t};\n}\n".

(** An access section: nothing when the guarding sequence is empty. *)
Definition access_section {A : Type} (guard : list A) (marker body : string) : string :=
  match guard with
  | [] => ""
  | _ :: _ => marker +:+ body
  end.

End Layout.

(** ** What a build leaves on the disk

    The map after the files of a class, the directory and files of a
    module, and those of a sequence of modules have been added to it, in
    the order the builder works; and the conditions under which the builder
    gets through a module without an exception. *)

Module Tree.









End Tree.

(** ** A project with two modules, and one with a module name used twice *)

Module Sample.

Definition logger : CClass.t :=
  {| CClass.name := "Logger";
     CClass.public_functions := [CFunction.init "log" (Some "Writes a line")];
     CClass.private_functions := [];
     CClass.public_variables := ["int level"];
     CClass.private_variables := [] |}.

Definition ui : CModule.t :=
  {| CModule.name := "ui"; CModule.classes := [CClass.init "panels"] |}.

Definition utils : CModule.t :=
  {| CModule.name := "utils"; CModule.classes := [logger] |}.


Definition net : CModule.t :=
  {| CModule.name := "net"; CModule.classes := [CClass.init "io/Socket"] |}.

Definition app : CProject.t :=
  {| CProject.name := "app"; CProject.cppnamespace := "app";
     CProject.modules := [ui; utils] |}.



Definition world_of (p : CProject.t) : World :=
  {| fs := {[ ["home"] := Dir; ["home"; "out"] := Dir;
              ["home"; "notes.txt"] := File "keep" ]};
     cwd := ["home"];
     g_project_name := None;
     g_current_module := None;
     stdout := [];
     project := p |}.

End Sample.

(** ** Relations between the world before and after a computation *)

(** [m] ends in a world related by [R] to the world it started in, whatever
    it returns or raises. *)
Definition preserves {A : Type} (R : World -> World -> Prop) (m : M A) : Prop :=
  forall w : World, R w (m w).2.

(** Every path is still there, and every directory still a directory. *)
Definition disk_grows (w w' : World) : Prop :=
  forall p : path,
    (fs w !! p = Some Dir -> fs w' !! p = Some Dir)
    /\ (is_Some (fs w !! p) -> is_Some (fs w' !! p)).

(** Nothing but the disk has changed. *)
Definition same_process (w w' : World) : Prop :=
  cwd w' = cwd w
  /\ g_project_name w' = g_project_name w
  /\ g_current_module w' = g_current_module w
  /\ stdout w' = stdout w.

(** Only the disk and the working directory may have changed. *)
Definition same_session (w w' : World) : Prop :=
  g_project_name w' = g_project_name w /\ stdout w' = stdout w.


(** ** The tables of the menus

    A [rich] table, as far as the renderers use one: the headers of its
    columns and its rows of cells, in the order they were added.  A row may
    have fewer cells than there are columns. *)

Module Table.

Record t : Type := { columns : list string; rows : list (list string) }.

Definition init : t := {| columns := []; rows := [] |}.

Definition add_column (header : string) (table : t) : t :=
  {| columns := columns table ++ [header]; rows := rows table |}.

Definition add_row (cells : list string) (table : t) : t :=
  {| columns := columns table; rows := rows table ++ [cells] |}.

End Table.

(** Exceptions of the menu code. *)
Inductive pyexc : Type :=
| KeyboardInterrupt
| UnboundLocalError (variable : string)
| AttributeError
| PyValueError.

Inductive attempt (A : Type) : Type :=
| Got (a : A)
| Threw (e : pyexc).

Arguments Got {A} a.
Arguments Threw {A} e.

(** The table that [render_project_table] prints. *)
Definition project_table (project : CProject.t) : Table.t :=
  let table := Table.init in
  let table := Table.add_column "Project Name" table in
  let table := Table.add_column "Modules" table in
  let table := Table.add_row [CProject.name project] table in
  fold_left (fun table mod_ => Table.add_row [""; CModule.name mod_] table)
            (CProject.modules project) table.

(** The table that [render_module_table] prints. *)
Definition module_table (module : CModule.t) : Table.t :=
  let table := Table.init in
  let table := Table.add_column "Module Name" table in
  let table := Table.add_column "Classes" table in
  let table := Table.add_row [CModule.name module] table in
  fold_left (fun table cppclass => Table.add_row [""; CClass.name cppclass] table)
            (CModule.classes module) table.

(** One column of a member row of the class table (lines 306-311 for the
    functions, 313-318 for the variables): the member's name and the value
    of the local [fn_type] (or [var_type]) after the [if].  The local is
    assigned only inside the [if]; outside it keeps what an earlier
    iteration left, and [None] stands for a local not bound yet. *)
Definition member_cell (all_members : list string) (public_count : nat)
    (i : nat) (member_type : option string) : string * option string :=
  let member := "" in
  if (i <? length all_members)%nat then
    let member := default "" (all_members !! i) in
    let member_type := "public" in
    let member_type :=
      if (public_count <=? i)%nat then "private" else member_type in
    (member, Some member_type)
  else (member, member_type).

(** ['{} ({})'.format(member, member_type)] *)
Definition labelled (member member_type : string) : string :=
  member +:+ " (" +:+ member_type +:+ ")".

(** The loop [for i in range(0, greatest_member_count)], from [i], with
    [count] iterations to go. *)
Fixpoint member_rows (cppclass : CClass.t) (all_fns all_vars : list string)
    (count i : nat) (fn_type var_type : option string) (table : Table.t)
  : attempt Table.t :=
  match count with
  | O => Got table
  | S count' =>
      let '(fn, fn_type) :=
        member_cell all_fns (length (CClass.public_functions cppclass)) i fn_type in
      let '(var, var_type) :=
        member_cell all_vars (length (CClass.public_variables cppclass)) i var_type in
      match fn_type with
      | None => Threw (UnboundLocalError "fn_type")
      | Some fn_type' =>
          match var_type with
          | None => Threw (UnboundLocalError "var_type")
          | Some var_type' =>
              member_rows cppclass all_fns all_vars count' (S i)
                fn_type var_type
                (Table.add_row [""; labelled fn fn_type'; labelled var var_type']
                               table)
          end
      end
  end.

(** The table that [render_class_table] builds, or the exception that
    stops it. *)
Definition class_table (cppclass : CClass.t) : attempt Table.t :=
  let table := Table.init in
  let table := Table.add_column "Class Name" table in
  let table := Table.add_column "Functions" table in
  let table := Table.add_column "Members Variables" table in
  let table := Table.add_row [CClass.name cppclass] table in
  let all_fns := map CFunction.name (CClass.public_functions cppclass) in
  let all_fns := all_fns ++ map CFunction.name (CClass.private_functions cppclass) in
  let all_vars := CClass.public_variables cppclass in
  let all_vars := all_vars ++ CClass.private_variables cppclass in
  let greatest_member_count := Nat.max (length all_fns) (length all_vars) in
  member_rows cppclass all_fns all_vars greatest_member_count 0 None None table.

(** The label a row of the class table shows for the member column at [i]:
    that of the member at [i], or of the last member when the column is
    shorter. *)
Definition shown_type (member_count public_count i : nat) : string :=
  if (public_count <=? Nat.min i (member_count - 1))%nat then "private" else "public".

Definition expected_member_row (cppclass : CClass.t) (i : nat) : list string :=
  let all_fns := map CFunction.name (CClass.public_functions cppclass)
                 ++ map CFunction.name (CClass.private_functions cppclass) in
  let all_vars := CClass.public_variables cppclass
                  ++ CClass.private_variables cppclass in
  [ "";
    labelled (default "" (all_fns !! i))
      (shown_type (length all_fns) (length (CClass.public_functions cppclass)) i);
    labelled (default "" (all_vars !! i))
      (shown_type (length all_vars) (length (CClass.public_variables cppclass)) i) ].

(** ** The interactive session

    The terminal is a port: [Prompt.ask] and [Confirm.ask] block until the
    user has given an answer that the prompt accepts, or has pressed
    Ctrl-C.  A session carries the replies still to come, what the program
    has put on the screen so far, and the project object.  A prompt with no
    reply left waits; a reply that the prompt at hand would not have
    accepted is off the port's contract.  The loops run on fuel, one unit
    per iteration. *)

Inductive reply : Type :=
| Typed (text : string)
| Decided (yes : bool)
| CtrlC.

#[global] Instance reply_eq_dec : EqDecision reply.
Proof. solve_decision. Defined.

Inductive event : Type :=
| Shown (table : Table.t)
| Printed (text : string)
| Asked (prompt : string) (choices : option (list string))
| Cleared.

Record Session : Type := {
  tree : CProject.t;
  screen : list event;
  keyboard : list reply
}.

Inductive ending (A : Type) : Type :=
| Returns (a : A)
| Raises (e : pyexc)
| Waits
| OffContract
| OutOfFuel.

Arguments Returns {A} a.
Arguments Raises {A} e.
Arguments Waits {A}.
Arguments OffContract {A}.
Arguments OutOfFuel {A}.

Definition IO (A : Type) : Type := Session -> ending A * Session.

#[global] Instance IO_ret : MRet IO := fun A a s => (Returns a, s).

#[global] Instance IO_bind : MBind IO := fun A B k m s =>
  match m s with
  | (Returns a, s') => k a s'
  | (Raises e, s') => (Raises e, s')
  | (Waits, s') => (Waits, s')
  | (OffContract, s') => (OffContract, s')
  | (OutOfFuel, s') => (OutOfFuel, s')
  end.

Definition throw {A : Type} (e : pyexc) : IO A := fun s => (Raises e, s).
Definition out_of_fuel {A : Type} : IO A := fun s => (OutOfFuel, s).
Definition off_contract {A : Type} : IO A := fun s => (OffContract, s).

(** [try: body  except KeyboardInterrupt: handler] *)
Definition try_except_KeyboardInterrupt {A : Type} (body handler : IO A) : IO A :=
  fun s =>
    match body s with
    | (Raises KeyboardInterrupt, s') => handler s'
    | other => other
    end.

Definition emit (e : event) : IO unit := fun s =>
  (Returns tt, {| tree := tree s; screen := screen s ++ [e]; keyboard := keyboard s |}).

Definition console_print (text : string) : IO unit := emit (Printed text).
Definition clear_screen : IO unit := emit Cleared.

Definition get_project : IO CProject.t := fun s => (Returns (tree s), s).

Definition set_project (project : CProject.t) : IO unit := fun s =>
  (Returns tt, {| tree := project; screen := screen s; keyboard := keyboard s |}).

(** The next reply, once the prompt is on the screen. *)
Definition next_reply (prompt : string) (choices : option (list string)) : IO reply :=
  fun s =>
    let shown := screen s ++ [Asked prompt choices] in
    match keyboard s with
    | [] => (Waits, {| tree := tree s; screen := shown; keyboard := [] |})
    | r :: rest => (Returns r, {| tree := tree s; screen := shown; keyboard := rest |})
    end.

(** [Prompt.ask(prompt, choices=...)] *)
Definition Prompt_ask (prompt : string) (choices : option (list string)) : IO string :=
  r ← next_reply prompt choices;
  (match r with
   | Typed text =>
       match choices with
       | None => mret text
       | Some allowed =>
           if bool_decide (text ∈ allowed) then mret text else off_contract
       end
   | CtrlC => throw KeyboardInterrupt
   | Decided _ => off_contract
   end : IO string).

(** [Confirm.ask(prompt)] *)
Definition Confirm_ask (prompt : string) : IO bool :=
  r ← next_reply prompt (Some ["y"; "n"]);
  (match r with
   | Decided yes => mret yes
   | CtrlC => throw KeyboardInterrupt
   | Typed _ => off_contract
   end : IO bool).

(** [int(s)] for a string of decimal digits, which is what every choice of
    the menus is; Python reads a few other spellings too. *)
Fixpoint digits_value (s : string) (acc : nat) : option nat :=
  match s with
  | EmptyString => Some acc
  | String c s' =>
      if Py.in_range "0" "9" c
      then digits_value s' (10 * acc + (nat_of_ascii c - 48))
      else None
  end.

Definition int (s : string) : IO nat :=
  match s with
  | EmptyString => throw PyValueError
  | _ => match digits_value s 0 with
         | Some n => mret n
         | None => throw PyValueError
         end
  end.

(** [render_project_table] *)
Definition render_project_table : IO unit :=
  project ← get_project;
  emit (Shown (project_table project)) ;;
  console_print "".

(** [render_module_table]; the argument is [None] when [get_module] found
    nothing. *)
Definition render_module_table (module : option CModule.t) : IO unit :=
  match module with
  | None => throw AttributeError
  | Some module =>
      emit (Shown (module_table module)) ;;
      console_print ""
  end.

(** [render_class_table] *)
Definition render_class_table (cppclass : option CClass.t) : IO unit :=
  match cppclass with
  | None => throw AttributeError
  | Some cppclass =>
      match class_table cppclass with
      | Got table => emit (Shown table) ;; console_print ""
      | Threw e => throw e
      end
  end.

(** The [while True] of [show_class_controls]. *)
Fixpoint class_menu (fuel : nat) (cppclass : option CClass.t) : IO unit :=
  match fuel with
  | O => out_of_fuel
  | S fuel' =>
      render_class_table cppclass ;;
      console_print "[1] Add function" ;;
      console_print "[2] Remove function" ;;
      console_print "[3] Add variable" ;;
      console_print "[4] Remove variable" ;;
      console_print "[5] Edit class name" ;;
      console_print "[6] Return to module menu" ;;
      console_print "" ;;
      answer ← Prompt_ask "Select option" (Some ["1"; "2"; "3"; "4"; "5"; "6"]);
      user_cmd ← int answer;
      if (user_cmd =? 6)%nat then mret tt
      else (clear_screen ;; class_menu fuel' cppclass)
  end.

Definition show_class_controls (fuel : nat) (cppclass : option CClass.t) : IO unit :=
  try_except_KeyboardInterrupt (class_menu fuel cppclass) (mret tt).

(** The module object that a menu works on is the one [get_module] found:
    the first module of that name, here by its position in
    [project.modules]. *)
Fixpoint position_loop (rest : list CModule.t) (name : string) (i : nat) : option nat :=
  match rest with
  | [] => None
  | mod_ :: rest' =>
      if String.eqb (CModule.name mod_) name then Some i
      else position_loop rest' name (S i)
  end.

Definition get_module_position (project : CProject.t) (name : string) : option nat :=
  position_loop (CProject.modules project) name 0.

Definition read_module (module : option nat) : IO (option CModule.t) := fun s =>
  (Returns (match module with
            | Some i => CProject.modules (tree s) !! i
            | None => None
            end), s).

(** An assignment to the module object, seen from the project. *)
Definition write_module (i : nat) (module : CModule.t) : IO unit :=
  project ← get_project;
  set_project {| CProject.name := CProject.name project;
                 CProject.cppnamespace := CProject.cppnamespace project;
                 CProject.modules := <[i := module]> (CProject.modules project) |}.

(** The [while True] of [show_module_controls]. *)
Fixpoint module_menu (fuel : nat) (module : option nat) : IO unit :=
  match fuel with
  | O => out_of_fuel
  | S fuel' =>
      current ← read_module module;
      render_module_table current ;;
      match module, current with
      | Some i, Some self =>
          console_print "[1] Select class" ;;
          console_print "[2] Add class" ;;
          console_print "[3] Remove class" ;;
          console_print "[4] Edit module name" ;;
          console_print "[5] Return to project menu" ;;
          console_print "" ;;
          answer ← Prompt_ask "Select option" (Some ["1"; "2"; "3"; "4"; "5"]);
          user_cmd ← int answer;
          if (user_cmd =? 5)%nat then mret tt
          else
            ((if (user_cmd =? 1)%nat && (0 <? length (CModule.classes self))%nat then
                let class_choices := map CClass.name (CModule.classes self) in
                selected_class_name ← Prompt_ask "Enter class name" (Some class_choices);
                clear_screen ;;
                show_class_controls fuel' (CModule.get_class self selected_class_name)
              else if (user_cmd =? 2)%nat then
                console_print "New class name" ;;
                raw ← Prompt_ask "" None;
                let class_name := sanitize raw in
                write_module i
                  {| CModule.name := CModule.name self;
                     CModule.classes := CModule.classes self ++ [CClass.init class_name] |}
              else if (user_cmd =? 3)%nat then
                console_print "Enter class name" ;;
                raw ← Prompt_ask "" None;
                let class_name := sanitize raw in
                match CModule.remove_class self class_name with
                | Ok self' => write_module i self'
                | Raise _ => throw PyValueError
                end
              else if (user_cmd =? 4)%nat then
                console_print "Enter new module name" ;;
                raw ← Prompt_ask "" None;
                let new_name := sanitize raw in
                write_module i
                  {| CModule.name := new_name; CModule.classes := CModule.classes self |}
              else mret tt) ;;
             clear_screen ;;
             module_menu fuel' module)
      | _, _ => throw AttributeError
      end
  end.

Definition show_module_controls (fuel : nat) (module : option nat) : IO unit :=
  try_except_KeyboardInterrupt (module_menu fuel module) (mret tt).

(** How an iteration of [show_project_controls] ends: with [return], or at
    the bottom of the loop. *)
Inductive flow : Type :=
| Return
| Continue.

(** The [try] block of [show_project_controls]. *)
Definition project_menu_body (fuel' : nat) : IO flow :=
  render_project_table ;;
  console_print "[1] Select module" ;;
  console_print "[2] Add module" ;;
  console_print "[3] Remove module" ;;
  console_print "[4] Edit project name" ;;
  console_print "[5] Generate project" ;;
  console_print "[6] Exit" ;;
  console_print "" ;;
  answer ← Prompt_ask "Select option" (Some ["1"; "2"; "3"; "4"; "5"; "6"]);
  user_cmd ← int answer;
  leave ← (if (user_cmd =? 6)%nat
           then Confirm_ask "Are you sure you want to exit?"
           else mret false);
  if (leave : bool) then mret Return
  else
    (project ← get_project;
     (if (user_cmd =? 1)%nat && (0 <? length (CProject.modules project))%nat then
        let module_choices := map CModule.name (CProject.modules project) in
        selected_module_name ← Prompt_ask "Enter module name" (Some module_choices);
        clear_screen ;;
        show_module_controls fuel' (get_module_position project selected_module_name)
      else if (user_cmd =? 2)%nat then
        console_print "New module name" ;;
        raw ← Prompt_ask "" None;
        let mod_name := sanitize raw in
        set_project
          {| CProject.name := CProject.name project;
             CProject.cppnamespace := CProject.cppnamespace project;
             CProject.modules := CProject.modules project ++ [CModule.init mod_name] |}
      else if (user_cmd =? 3)%nat then
        console_print "Enter module name" ;;
        raw ← Prompt_ask "" None;
        let mod_name := sanitize raw in
        match CProject.remove_module project mod_name with
        | Ok project' => set_project project'
        | Raise _ => throw PyValueError
        end
      else if (user_cmd =? 4)%nat then
        console_print "Enter new project name" ;;
        raw ← Prompt_ask "" None;
        let new_name := sanitize raw in
        set_project
          {| CProject.name := new_name;
             CProject.cppnamespace := CProject.cppnamespace project;
             CProject.modules := CProject.modules project |}
      else mret tt) ;;
     clear_screen ;;
     mret Continue).

(** The [except KeyboardInterrupt] block of [show_project_controls]. *)
Definition project_menu_interrupted : IO flow :=
  console_print "" ;;
  leave ← Confirm_ask "Are you sure you want to exit?";
  if (leave : bool) then mret Return
  else (clear_screen ;; mret Continue).

(** [show_project_controls] *)
Fixpoint show_project_controls (fuel : nat) : IO unit :=
  match fuel with
  | O => out_of_fuel
  | S fuel' =>
      how ← try_except_KeyboardInterrupt (project_menu_body fuel')
                                          project_menu_interrupted;
      match how with
      | Return => mret tt
      | Continue => show_project_controls fuel'
      end
  end.

(** The project that [main] seeds (lines 461-482), under the name asked at
    the start. *)
Definition seeded (name : string) : CProject.t :=
  let project := CProject.init name "" in
  let client_app_class :=
    {| CClass.name := "client_app";
       CClass.public_functions :=
         [CFunction.init "render_app"
            (Some "Main rendering routine used to render the application");
          CFunction.init "render_overlay"
            (Some "Draws the 2D overlay over the main window")];
       CClass.private_functions := [CFunction.init "render_background_color" None];
       CClass.public_variables :=
         ["std::unique_ptr<ClientState> m_ClientState = nullptr"];
       CClass.private_variables := ["Renderer* m_Renderer"; "Window* m_Window"] |} in
  let ui_module :=
    {| CModule.name := "ui";
       CModule.classes := [client_app_class; CClass.init "panels"] |} in
  let network_module :=
    {| CModule.name := "network";
       CModule.classes := [CClass.init "Packets"; CClass.init "NetworkManager"] |} in
  let utils_module :=
    {| CModule.name := "utils"; CModule.classes := [CClass.init "Logger"] |} in
  {| CProject.name := CProject.name project;
     CProject.cppnamespace := CProject.cppnamespace project;
     CProject.modules :=
       CProject.modules project ++ [ui_module; network_module; utils_module] |}.

(** [main]; the project object does not exist before [main] makes it, and
    the session's field is then overwritten. *)
Definition main (fuel : nat) : IO unit :=
  clear_screen ;;
  console_print (Py.lit "\n") ;;
  console_print "Enter the project name" ;;
  name ← Prompt_ask "" None;
  clear_screen ;;
  set_project (seeded name) ;;
  show_project_controls fuel.

(** The script: [try: main()  except KeyboardInterrupt: pass], then
    [print()]. *)
Definition program (fuel : nat) : IO unit :=
  try_except_KeyboardInterrupt (main fuel) (mret tt) ;;
  console_print "".

(** ** Vocabulary for the session's properties *)

(** [m] leaves the project object alone, however it ends. *)
Definition keeps_tree {A : Type} (m : IO A) : Prop :=
  forall s : Session, tree (m s).2 = tree s.

(** Started on the project [t], [m] ends on a project related to it by [T]. *)
Definition from_tree {A : Type} (t : CProject.t)
    (T : CProject.t -> CProject.t -> Prop) (m : IO A) : Prop :=
  forall s : Session, tree s = t -> T t (tree (m s).2).

(** A name as the menus store one. *)
Definition sanitized (name : string) : Prop := exists raw, name = sanitize raw.

(** What the menus can have made of the project [t]: the namespace is the
    same; the name is the same or a sanitized one; every module has the
    name of a module of [t] or a sanitized one; and every class is a class
    of [t], as it was, or an empty class with a sanitized name. *)
Definition menu_edits (t t' : CProject.t) : Prop :=
  CProject.cppnamespace t' = CProject.cppnamespace t
  /\ (CProject.name t' = CProject.name t \/ sanitized (CProject.name t'))
  /\ Forall (fun m' =>
       ((exists m, m ∈ CProject.modules t /\ CModule.name m' = CModule.name m)
        \/ sanitized (CModule.name m'))
       /\ Forall (fun c =>
            (exists m, m ∈ CProject.modules t /\ c ∈ CModule.classes m)
            \/ exists raw, c = CClass.init (sanitize raw))
            (CModule.classes m'))
       (CProject.modules t').


(** With fewer than [n] replies to come, [m] does not run out of fuel and
    does not add replies; when [strict], it returns only after it has taken
    a reply. *)
Definition runs {A : Type} (n : nat) (strict : bool) (m : IO A) : Prop :=
  forall s : Session,
    (length (keyboard s) < n)%nat ->
    (m s).1 <> OutOfFuel
    /\ (length (keyboard (m s).2) <= length (keyboard s))%nat
    /\ (strict = true -> forall a, (m s).1 = Returns a ->
        (length (keyboard (m s).2) < length (keyboard s))%nat).

(** [m] takes its replies from the front of the keyboard, in order.  It
    raises [KeyboardInterrupt] only straight after a Ctrl-C, and returns a
    value that [ret] marks only straight after a confirmation. *)
Definition reads {A : Type} (ret : A -> bool) (m : IO A) : Prop :=
  forall s : Session,
    exists pre,
      keyboard s = pre ++ keyboard (m s).2
      /\ ((m s).1 = Raises KeyboardInterrupt -> exists pre', pre = pre' ++ [CtrlC])
      /\ (forall a, (m s).1 = Returns a -> ret a = true ->
          exists pre', pre = pre' ++ [Decided true]).

Definition unmarked {A : Type} (a : A) : bool := false.

Definition is_Return (how : flow) : bool :=
  match how with
  | Return => true
  | Continue => false
  end.



(** Started on the project [t], [m] ends on a project that satisfies [I],
    and raises nothing but [KeyboardInterrupt]. *)
Definition steady {A : Type} (t : CProject.t) (I : CProject.t -> Prop)
    (m : IO A) : Prop :=
  forall s : Session,
    tree s = t ->
    I (tree (m s).2)
    /\ forall e, (m s).1 = Raises e -> e = KeyboardInterrupt.

(** * Properties *)

(** ** Strings *)

Section StringFacts.

Lemma sapp_nil_l (s : string) : "" +:+ s = s.
Proof. reflexivity. Qed.

Lemma sapp_cons (c : ascii) (s t : string) : String c s +:+ t = String c (s +:+ t).
Proof. reflexivity. Qed.

Lemma sapp_nil_r (s : string) : s +:+ "" = s.
Proof.
  induction s as [|c s IH]; [reflexivity | now rewrite sapp_cons, IH].
Qed.

Lemma sapp_assoc (a b c : string) : (a +:+ b) +:+ c = a +:+ b +:+ c.
Proof.
  induction a as [|x a IH]; [reflexivity | now rewrite !sapp_cons, IH].
Qed.

Lemma prefix_empty (s : string) : String.prefix "" s = true.
Proof. now destruct s. Qed.

(** [replace] with a one-character [old], character by character. *)
Lemma replace_char_nil (c : ascii) (new : string) :
  Py.replace (String c "") new "" = "".
Proof. reflexivity. Qed.

Lemma replace_char_cons (c a : ascii) (new s : string) :
  Py.replace (String c "") new (String a s) =
  if Ascii.eqb a c then new +:+ Py.replace (String c "") new s
  else String a (Py.replace (String c "") new s).
Proof.
  unfold Py.replace. cbn [Py.replace_go String.prefix String.length Nat.sub].
  destruct (ascii_dec c a) as [->|Hne].
  - now rewrite prefix_empty, Ascii.eqb_refl.
  - destruct (Ascii.eqb_spec a c) as [->|_]; [now contradict Hne | reflexivity].
Qed.

Lemma all_chars_impl (P Q : ascii -> bool) (s : string) :
  (forall c, P c = true -> Q c = true) ->
  Py.all_chars P s = true -> Py.all_chars Q s = true.
Proof.
  intros HPQ. induction s as [|c s IH]; simpl; [reflexivity|].
  rewrite !andb_true_iff. intros [Hc Hs]. split; [now apply HPQ | now apply IH].
Qed.

Lemma re_sub_outside_all (keep : ascii -> bool) (s : string) :
  Py.all_chars keep (Py.re_sub_outside keep s) = true.
Proof.
  induction s as [|c s IH]; simpl; [reflexivity|].
  destruct (keep c) eqn:Hc; simpl; [now rewrite Hc | exact IH].
Qed.

Lemma re_sub_outside_id (keep : ascii -> bool) (s : string) :
  Py.all_chars keep s = true -> Py.re_sub_outside keep s = s.
Proof.
  induction s as [|c s IH]; simpl; [reflexivity|].
  rewrite andb_true_iff. intros [Hc Hs]. now rewrite Hc, IH.
Qed.

Lemma replace_char_id (c : ascii) (new s : string) :
  Py.all_chars (fun a => negb (Ascii.eqb a c)) s = true ->
  Py.replace (String c "") new s = s.
Proof.
  induction s as [|a s IH]; [reflexivity|].
  simpl Py.all_chars. rewrite andb_true_iff, negb_true_iff. intros [Ha Hs].
  now rewrite replace_char_cons, Ha, IH.
Qed.

(** The class of the sanitizer, letter by letter. *)
Lemma is_name_char_spec (c : ascii) :
  is_name_char c =
  existsb (Ascii.eqb c)
    (String.list_ascii_of_string
       "abcdefghijklmnopqrstuvwxyzABCDEFGHIJKLMNOPQRSTUVWXYZ0123456789_").
Proof.
  destruct c as [[] [] [] [] [] [] [] []]; vm_compute; reflexivity.
Qed.

Lemma name_char_not_space (c : ascii) :
  is_name_char c = true -> negb (Ascii.eqb c " ") = true.
Proof.
  intros Hc. destruct (Ascii.eqb_spec c " ") as [->|_]; [|reflexivity].
  vm_compute in Hc. discriminate.
Qed.

Lemma sanitize_no_name_char (s : string) :
  Py.all_chars (fun c => negb (is_name_char c || Ascii.eqb c " ")) s = true ->
  sanitize s = "".
Proof.
  unfold sanitize. induction s as [|a s IH]; [reflexivity|].
  simpl Py.all_chars. rewrite andb_true_iff, negb_true_iff, orb_false_iff.
  intros [[Hn Hsp] Hs]. rewrite replace_char_cons, Hsp. simpl.
  rewrite Hn. now apply IH.
Qed.

End StringFacts.

(** ** The sanitizer *)

(** C4.  For every raw string, the sanitized name holds only characters of
    [[A-Za-z0-9_]] and no space; sanitizing is a total function, and an
    input made of characters that it strips (none of the class, and no
    space, which it replaces) comes out as the empty string; and sanitizing
    twice is sanitizing once. *)
Theorem sanitize_alphabet_idempotent (s : string) :
  Py.all_chars is_name_char (sanitize s) = true
  /\ Py.all_chars (fun c => negb (Ascii.eqb c " ")) (sanitize s) = true
  /\ sanitize (sanitize s) = sanitize s
  /\ (Py.all_chars (fun c => negb (is_name_char c || Ascii.eqb c " ")) s = true ->
      sanitize s = "").
Proof.
  assert (Hall : Py.all_chars is_name_char (sanitize s) = true)
    by apply re_sub_outside_all.
  assert (Hsp : Py.all_chars (fun c => negb (Ascii.eqb c " ")) (sanitize s) = true)
    by (eapply all_chars_impl; [apply name_char_not_space | exact Hall]).
  repeat split; try assumption.
  - unfold sanitize at 1. cbv zeta.
    rewrite (replace_char_id " " "_" (sanitize s) Hsp).
    now apply re_sub_outside_id.
  - apply sanitize_no_name_char.
Qed.

Lemma sanitize_alphabet_idempotent_witness :
  sanitize "My Mod!" = "My_Mod" /\ sanitize "!!!" = "".
Proof.
  split; [reflexivity|].
  apply (sanitize_alphabet_idempotent "!!!"). reflexivity.
Defined.

(** ** Lookup and removal *)

Section Scans.

Context {A : Type} `{EqDecision A}.

Lemma list_remove_first (x : A) (pre post : list A) :
  Forall (fun y => y <> x) pre ->
  list_remove x (pre ++ x :: post) = Ok (pre ++ post).
Proof.
  induction pre as [|y pre IH]; intros Hpre; simpl.
  - now rewrite decide_True.
  - inversion Hpre as [|? ? Hy Hpre']; subst.
    rewrite decide_False by assumption. now rewrite IH.
Qed.

End Scans.

Lemma get_module_loop_spec (l : list CModule.t) (n : string) :
  match CProject.get_module_loop l n with
  | Some m =>
      exists pre post, l = pre ++ m :: post /\ CModule.name m = n
                       /\ Forall (fun x => CModule.name x <> n) pre
  | None => Forall (fun x => CModule.name x <> n) l
  end.
Proof.
  induction l as [|x l IH]; simpl; [constructor|].
  destruct (String.eqb_spec (CModule.name x) n) as [Heq|Hne].
  - exists [], l. repeat split; [assumption | constructor].
  - destruct (CProject.get_module_loop l n) as [m|].
    + destruct IH as (pre & post & -> & Hm & Hpre).
      exists (x :: pre), post. repeat split; [assumption | now constructor].
    + now constructor.
Qed.

Lemma get_class_loop_spec (l : list CClass.t) (n : string) :
  match CModule.get_class_loop l n with
  | Some c =>
      exists pre post, l = pre ++ c :: post /\ CClass.name c = n
                       /\ Forall (fun x => CClass.name x <> n) pre
  | None => Forall (fun x => CClass.name x <> n) l
  end.
Proof.
  induction l as [|x l IH]; simpl; [constructor|].
  destruct (String.eqb_spec (CClass.name x) n) as [Heq|Hne].
  - exists [], l. repeat split; [assumption | constructor].
  - destruct (CModule.get_class_loop l n) as [c|].
    + destruct IH as (pre & post & -> & Hc & Hpre).
      exists (x :: pre), post. repeat split; [assumption | now constructor].
    + now constructor.
Qed.

(** C5.  [get_module] and [get_class] return the first element, in list
    order, whose name is the given one, and [None] when no element has that
    name; on an empty collection the answer is [None].  Both are total:
    nothing is raised. *)
Theorem get_first_match_or_none (p : CProject.t) (m : CModule.t) (n : string) :
  match CProject.get_module p n with
  | Some found =>
      exists pre post, CProject.modules p = pre ++ found :: post
                       /\ CModule.name found = n
                       /\ Forall (fun x => CModule.name x <> n) pre
  | None => Forall (fun x => CModule.name x <> n) (CProject.modules p)
  end
  /\ match CModule.get_class m n with
     | Some found =>
         exists pre post, CModule.classes m = pre ++ found :: post
                          /\ CClass.name found = n
                          /\ Forall (fun x => CClass.name x <> n) pre
     | None => Forall (fun x => CClass.name x <> n) (CModule.classes m)
     end
  /\ CProject.get_module (CProject.init (CProject.name p) (CProject.cppnamespace p)) n = None
  /\ CModule.get_class (CModule.init (CModule.name m)) n = None.
Proof.
  repeat split.
  - apply get_module_loop_spec.
  - apply get_class_loop_spec.
Qed.

Lemma remove_module_loop_spec (pre rest : list CModule.t) (n : string) :
  Forall (fun x => CModule.name x <> n) pre ->
  (exists mid m post, rest = mid ++ m :: post /\ CModule.name m = n
      /\ Forall (fun x => CModule.name x <> n) (pre ++ mid)
      /\ CProject.remove_module_loop rest (pre ++ rest) n = Ok ((pre ++ mid) ++ post))
  \/ (Forall (fun x => CModule.name x <> n) (pre ++ rest)
      /\ CProject.remove_module_loop rest (pre ++ rest) n = Ok (pre ++ rest)).
Proof.
  revert pre. induction rest as [|x rest IH]; intros pre Hpre.
  - right. now rewrite app_nil_r.
  - simpl. destruct (String.eqb_spec (CModule.name x) n) as [Heq|Hne].
    + left. exists [], x, rest. rewrite app_nil_r. repeat split; try assumption.
      apply list_remove_first.
      eapply Forall_impl; [exact Hpre|]. intros y Hy ->. now apply Hy.
    + assert (Hpre' : Forall (fun y => CModule.name y <> n) (pre ++ [x]))
        by (apply Forall_app; split; [assumption | now repeat constructor]).
      specialize (IH (pre ++ [x]) Hpre').
      rewrite <- !(app_assoc pre [x]) in IH. simpl in IH.
      destruct IH as [(mid & m & post & -> & Hm & Hall & Hrun)|[Hall Hrun]].
      * left. exists (x :: mid), m, post. repeat split; try assumption.
        -- now rewrite <- (app_assoc pre [x]) in Hall.
        -- rewrite Hrun. now rewrite <- !(app_assoc pre [x]).
      * right. split; assumption.
Qed.

Lemma remove_class_loop_spec (pre rest : list CClass.t) (n : string) :
  Forall (fun x => CClass.name x <> n) pre ->
  (exists mid c post, rest = mid ++ c :: post /\ CClass.name c = n
      /\ Forall (fun x => CClass.name x <> n) (pre ++ mid)
      /\ CModule.remove_class_loop rest (pre ++ rest) n = Ok ((pre ++ mid) ++ post))
  \/ (Forall (fun x => CClass.name x <> n) (pre ++ rest)
      /\ CModule.remove_class_loop rest (pre ++ rest) n = Ok (pre ++ rest)).
Proof.
  revert pre. induction rest as [|x rest IH]; intros pre Hpre.
  - right. now rewrite app_nil_r.
  - simpl. destruct (String.eqb_spec (CClass.name x) n) as [Heq|Hne].
    + left. exists [], x, rest. rewrite app_nil_r. repeat split; try assumption.
      apply list_remove_first.
      eapply Forall_impl; [exact Hpre|]. intros y Hy ->. now apply Hy.
    + assert (Hpre' : Forall (fun y => CClass.name y <> n) (pre ++ [x]))
        by (apply Forall_app; split; [assumption | now repeat constructor]).
      specialize (IH (pre ++ [x]) Hpre').
      rewrite <- !(app_assoc pre [x]) in IH. simpl in IH.
      destruct IH as [(mid & c & post & -> & Hc & Hall & Hrun)|[Hall Hrun]].
      * left. exists (x :: mid), c, post. repeat split; try assumption.
        -- now rewrite <- (app_assoc pre [x]) in Hall.
        -- rewrite Hrun. now rewrite <- !(app_assoc pre [x]).
      * right. split; assumption.
Qed.

(** C6.  [remove_module] and [remove_class] never raise; they drop the
    first element whose name is the given one and keep every other element
    in place, and when no element has that name the collection stays as it
    is. The other fields of the object are untouched. *)
Theorem remove_first_match_only (p : CProject.t) (m : CModule.t) (n : string) :
  (exists p', CProject.remove_module p n = Ok p'
     /\ CProject.name p' = CProject.name p
     /\ CProject.cppnamespace p' = CProject.cppnamespace p
     /\ ((exists pre found post,
            CProject.modules p = pre ++ found :: post
            /\ CModule.name found = n
            /\ Forall (fun x => CModule.name x <> n) pre
            /\ CProject.modules p' = pre ++ post)
         \/ (Forall (fun x => CModule.name x <> n) (CProject.modules p)
             /\ CProject.modules p' = CProject.modules p)))
  /\ (exists m', CModule.remove_class m n = Ok m'
        /\ CModule.name m' = CModule.name m
        /\ ((exists pre found post,
               CModule.classes m = pre ++ found :: post
               /\ CClass.name found = n
               /\ Forall (fun x => CClass.name x <> n) pre
               /\ CModule.classes m' = pre ++ post)
            \/ (Forall (fun x => CClass.name x <> n) (CModule.classes m)
                /\ CModule.classes m' = CModule.classes m))).
Proof.
  split.
  - unfold CProject.remove_module.
    destruct (remove_module_loop_spec [] (CProject.modules p) n (List.Forall_nil _))
      as [(mid & found & post & Hl & Hn & Hall & Hrun)|[Hall Hrun]];
      simpl in Hrun, Hall; rewrite Hrun; eexists; repeat split.
    + left. exists mid, found, post. repeat split; assumption.
    + right. split; [assumption | reflexivity].
  - unfold CModule.remove_class.
    destruct (remove_class_loop_spec [] (CModule.classes m) n (List.Forall_nil _))
      as [(mid & found & post & Hl & Hn & Hall & Hrun)|[Hall Hrun]];
      simpl in Hrun, Hall; rewrite Hrun; eexists; repeat split.
    + left. exists mid, found, post. repeat split; assumption.
    + right. split; [assumption | reflexivity].
Qed.

(** ** The generated text *)

Section TextFacts.

Lemma fold_left_text {A : Type} (line : A -> string) (l : list A) (f : string) :
  fold_left (fun f x => f +:+ line x) l f = f +:+ Layout.text_of line l.
Proof.
  revert f. induction l as [|x l IH]; intros f; simpl.
  - now rewrite sapp_nil_r.
  - now rewrite IH, sapp_assoc.
Qed.

Lemma text_of_app {A : Type} (line : A -> string) (l1 l2 : list A) :
  Layout.text_of line (l1 ++ l2) = Layout.text_of line l1 +:+ Layout.text_of line l2.
Proof.
  induction l1 as [|x l1 IH]; simpl; [reflexivity|].
  now rewrite IH, sapp_assoc.
Qed.

Lemma split_cons (sep : ascii) (s : string) :
  exists piece pieces, Py.split sep s = piece :: pieces.
Proof.
  destruct s as [|c s]; simpl; [now eexists _, _|].
  destruct (Ascii.eqb c sep); [now eexists _, _|].
  destruct (Py.split sep s); now eexists _, _.
Qed.

Lemma join_cons (sep x : string) (l : list string) :
  Py.join sep (x :: l) =
  match l with [] => x | _ :: _ => x +:+ sep +:+ Py.join sep l end.
Proof. reflexivity. Qed.

(** Replacing a character is splitting at it and joining with the
    replacement. *)
Lemma replace_char_join_split (c : ascii) (new s : string) :
  Py.replace (String c "") new s = Py.join new (Py.split c s).
Proof.
  induction s as [|a s IH]; [reflexivity|].
  rewrite replace_char_cons, IH. cbn [Py.split].
  destruct (split_cons c s) as (piece & pieces & Hs). rewrite Hs.
  destruct (Ascii.eqb a c).
  - now rewrite (join_cons new "").
  - rewrite !join_cons. destruct pieces; reflexivity.
Qed.

(** The header, part by part. *)
Lemma header_text_parts (scope module_name : option string) (c : CClass.t) :
  CClass.header_text scope module_name c =
  Layout.head scope module_name c
  +:+ Layout.access_section (CClass.public_functions c) Layout.public_marker
        (Layout.declarations c (CClass.public_functions c))
  +:+ Layout.access_section (CClass.public_variables c) Layout.public_marker
        (Layout.variable_lines (CClass.public_variables c))
  +:+ Layout.access_section (CClass.private_functions c) Layout.private_marker
        (Layout.declarations c (CClass.public_functions c))
  +:+ Layout.access_section (CClass.private_variables c) Layout.private_marker
        (Layout.variable_lines (CClass.public_variables c))
  +:+ Layout.tail.
Proof.
  destruct c as [n pf vf pv vv].
  unfold CClass.header_text, Layout.head, Layout.class_open, Layout.namespace_open,
    Layout.declarations, Layout.variable_lines.
  cbn [CClass.name CClass.public_functions CClass.private_functions
       CClass.public_variables CClass.private_variables].
  destruct pf as [|f1 pf], pv as [|v1 pv], vf as [|f2 vf], vv as [|v2 vv];
    cbn [length Nat.ltb Nat.leb Layout.access_section];
    rewrite ?fold_left_text, ?sapp_assoc, ?sapp_nil_l;
    vm_compute; reflexivity.
Qed.

Lemma indent_lines_cons (tab nl x : string) (l : list string) :
  tab +:+ Py.join (nl +:+ tab) (x :: l) =
  Py.join nl (map (fun line => tab +:+ line) (x :: l)).
Proof.
  revert x. induction l as [|y l IH]; intros x; [reflexivity|].
  rewrite (join_cons (nl +:+ tab)).
  change (map (fun line => tab +:+ line) (x :: y :: l))
    with ((tab +:+ x) :: map (fun line => tab +:+ line) (y :: l)).
  rewrite (join_cons nl), <- IH. cbn [map]. now rewrite !sapp_assoc.
Qed.

(** What [with open(...)] leaves behind. *)
Lemma with_open_w_spec (name text : string) (w : World) :
  match with_open_w name text w with
  | (Ok _, w') =>
      exists q, Os.locate (fs w) (cwd w) (Os.Str name) = Ok q
                /\ w' = with_fs (<[q := File text]> (fs w)) w
  | (Raise _, w') => w' = w
  end.
Proof.
  unfold with_open_w.
  destruct (Os.locate (fs w) (cwd w) (Os.Str name)) as [q|e]; [|reflexivity].
  destruct (Os.node_at (fs w) q) as [[|content]|]; [reflexivity | | ];
    now exists q.
Qed.

End TextFacts.



(** C7.  A function of [public_functions] appears in the header after the
    public marker and the declarations of the functions before it, and
    before those of the functions after it.  Its text is, in this order:
    when a description is present, a block comment holding the description
    with each of its lines indented; the declaration [void name();]; and,
    when and only when a description is present, an empty line. *)
Theorem public_function_declaration_layout
    (scope module_name : option string) (c : CClass.t)
    (pre post : list CFunction.t) (fn : CFunction.t) :
  CClass.public_functions c = pre ++ fn :: post ->
  (exists after,
     CClass.header_text scope module_name c =
     Layout.head scope module_name c
     +:+ Layout.public_marker
     +:+ Layout.declarations c pre
     +:+ CClass.get_header_function_declaration c fn
     +:+ Layout.declarations c post
     +:+ after)
  /\ CClass.get_header_function_declaration c fn =
     match CFunction.description fn with
     | Some description =>
         Py.lit "\t\t/*\n"
         +:+ Py.join (Py.lit "\n")
               (map (fun line => Py.lit "\t\t\t" +:+ line) (Py.split Py.NL description))
         +:+ Py.lit "\n\t\t*/\n"
         +:+ Py.lit "\t\tvoid " +:+ CFunction.name fn +:+ Py.lit "();\n"
         +:+ Py.lit "\n"
     | None =>
         Py.lit "\t\tvoid " +:+ CFunction.name fn +:+ Py.lit "();\n"
     end.
Proof.
  intros Hfns. split.
  - rewrite header_text_parts, Hfns.
    destruct (pre ++ fn :: post) as [|x l] eqn:Hl; [now destruct pre|].
    cbn [Layout.access_section]. rewrite <- Hl.
    unfold Layout.declarations at 1. rewrite text_of_app. cbn [Layout.text_of].
    fold (Layout.declarations c pre). fold (Layout.declarations c post).
    eexists. rewrite !(sapp_assoc Layout.public_marker).
    rewrite !(sapp_assoc (Layout.declarations c pre)).
    rewrite !(sapp_assoc (CClass.get_header_function_declaration c fn)).
    reflexivity.
  - unfold CClass.get_header_function_declaration. cbv zeta.
    destruct (CFunction.description fn) as [d|]; [|reflexivity].
    change (Py.lit "\n") with (String Py.NL "") at 1.
    rewrite replace_char_join_split.
    destruct (split_cons Py.NL d) as (piece & pieces & Hs). rewrite Hs.
    rewrite <- (indent_lines_cons (Py.lit "\t\t\t") (Py.lit "\n")).
    rewrite !sapp_assoc. reflexivity.
Qed.

Lemma public_function_declaration_layout_witness :
  CClass.get_header_function_declaration
    {| CClass.name := "client_app";
       CClass.public_functions :=
         [CFunction.init "render_app" (Some (Py.lit "Main routine\nof the app"));
          CFunction.init "render_overlay" None];
       CClass.private_functions := [];
       CClass.public_variables := [];
       CClass.private_variables := [] |}
    (CFunction.init "render_app" (Some (Py.lit "Main routine\nof the app")))
  = Py.lit "\t\t/*\n\t\t\tMain routine\n\t\t\tof the app\n\t\t*/\n\t\tvoid render_app();\n\n".
Proof.
  destruct (public_function_declaration_layout (Some "demo") (Some "ui")
    {| CClass.name := "client_app";
       CClass.public_functions :=
         [CFunction.init "render_app" (Some (Py.lit "Main routine\nof the app"));
          CFunction.init "render_overlay" None];
       CClass.private_functions := [];
       CClass.public_variables := [];
       CClass.private_variables := [] |}
    [] [CFunction.init "render_overlay" None]
    (CFunction.init "render_app" (Some (Py.lit "Main routine\nof the app")))
    eq_refl) as [_ Hdecl].
  rewrite Hdecl. vm_compute. reflexivity.
Defined.

(** C8.  The source text of a class is the include of [name.h], the
    namespace opening that the header has after its pragma line, and the
    closing brace, and nothing else: no function of the class shows in it.
    [__generate_source_file] stores exactly this text in [name.cpp], as
    [__generate_header_file] stores the header in [name.h]. *)
Theorem source_file_is_empty_shell
    (scope module_name : option string) (c : CClass.t) :
  CClass.source_text scope module_name c =
    Py.lit "#include \q" +:+ CClass.name c +:+ ".h" +:+ Py.lit "\q\n\n"
    +:+ Layout.namespace_open scope module_name
    +:+ Py.lit "}\n"
  /\ (exists rest,
        CClass.header_text scope module_name c =
        PRAGMA_ONCE_DEFINITION +:+ Py.lit "\n"
        +:+ Layout.namespace_open scope module_name +:+ rest)
  /\ (forall w : World,
        match generate_source_file c w with
        | (Ok _, w') =>
            exists q,
              Os.locate (fs w) (cwd w) (Os.Str (CClass.name c +:+ ".cpp")) = Ok q
              /\ w' = with_fs
                        (<[q := File (CClass.source_text (g_project_name w)
                                        (g_current_module w) c)]> (fs w)) w
        | (Raise _, w') => w' = w
        end)
  /\ (forall w : World,
        match generate_header_file c w with
        | (Ok _, w') =>
            exists q,
              Os.locate (fs w) (cwd w) (Os.Str (CClass.name c +:+ ".h")) = Ok q
              /\ w' = with_fs
                        (<[q := File (CClass.header_text (g_project_name w)
                                        (g_current_module w) c)]> (fs w)) w
        | (Raise _, w') => w' = w
        end).
Proof.
  repeat split.
  - unfold CClass.source_text, Layout.namespace_open. cbv zeta.
    now rewrite !sapp_assoc, !sapp_nil_l.
  - rewrite header_text_parts. unfold Layout.head.
    eexists.
    rewrite (sapp_assoc PRAGMA_ONCE_DEFINITION), (sapp_assoc (Py.lit "\n")),
      (sapp_assoc (Layout.namespace_open scope module_name)).
    reflexivity.
  - intros w. apply with_open_w_spec.
  - intros w. apply with_open_w_spec.
Qed.

(** ** The builder *)

Ltac world_simpl :=
  cbn [fs cwd g_project_name g_current_module stdout project].

Section BuilderFacts.

Lemma namei_name_step (m : gmap path node) (cur comps q : path) :
  Os.namei Os.name_step m cur comps = Ok q -> q = cur ++ comps.
Proof.
  revert cur. induction comps as [|c comps IH]; intros cur; simpl.
  - intros [= <-]. now rewrite app_nil_r.
  - destruct (Os.node_at m cur) as [[|content]|]; try discriminate.
    intros Hq. apply IH in Hq. subst q. unfold Os.name_step.
    now rewrite <- app_assoc.
Qed.

(** A resolved path that is a directory is located at itself. *)
Lemma isdir_abs (m : gmap path node) (cwd p : path) :
  Os.isdir m cwd (Os.Abs p) = true ->
  Os.locate m cwd (Os.Abs p) = Ok p /\ Os.node_at m p = Some Dir.
Proof.
  unfold Os.isdir. destruct (Os.locate m cwd (Os.Abs p)) as [q|e] eqn:Hq;
    [|discriminate].
  apply namei_name_step in Hq as Hq'. simpl in Hq'. subst q.
  destruct (Os.node_at m p) as [[|content]|]; try discriminate. now split.
Qed.

Lemma split_plain (sep : ascii) (s : string) :
  Py.all_chars (fun c => negb (Ascii.eqb c sep)) s = true ->
  Py.split sep s = [s].
Proof.
  induction s as [|c s IH]; [reflexivity|].
  simpl. rewrite andb_true_iff, negb_true_iff. intros [-> Hs].
  now rewrite IH.
Qed.

(** Inside a directory, a plain name is a directory exactly when the map
    has a directory at the path one component longer. *)
Lemma isdir_plain_name (m : gmap path node) (dir : path) (s : string) :
  plain_name s = true ->
  Os.node_at m dir = Some Dir ->
  Os.isdir m dir (Os.Str s) = true <-> m !! (dir ++ [s]) = Some Dir.
Proof.
  unfold plain_name. rewrite !andb_true_iff, !negb_true_iff.
  intros [[[Hne Hdot] Hdotdot] Hslash] Hdir.
  unfold Os.isdir, Os.locate. rewrite Hne, (split_plain _ _ Hslash).
  assert (Habs : Os.is_absolute s = false).
  { destruct s as [|c s]; [reflexivity|]. simpl in Hslash.
    apply andb_true_iff in Hslash as [Hc _]. apply negb_true_iff in Hc.
    unfold Os.is_absolute. cbn [String.prefix].
    destruct (ascii_dec "/" c) as [<-|_]; [|reflexivity].
    now rewrite Ascii.eqb_refl in Hc. }
  unfold Os.start. rewrite Habs. cbn [Os.namei]. rewrite Hdir.
  unfold Os.dot_step. rewrite Hne, Hdot, Hdotdot. cbn [orb].
  assert (Hnode : Os.node_at m (dir ++ [s]) = m !! (dir ++ [s]))
    by now destruct dir.
  rewrite Hnode. destruct (m !! (dir ++ [s])) as [[|content]|]; split; congruence.
Qed.

Lemma generate_project_target_missing (w : World) (target_dir : string) :
  Os.isdir (fs w) (cwd w) (Os.Abs (Os.abspath (cwd w) target_dir)) = false ->
  generate_project target_dir w = (Ok tt, after_target_missing w).
Proof.
  destruct w as [m d gp gm out p]. cbn [fs cwd]. intros Hdir.
  unfold generate_project, mbind, M_bind, get_self,
    set_g_project_name, os_path_abspath, os_path_isdir, with_g_project_name.
  world_simpl. rewrite Hdir. reflexivity.
Qed.

Lemma generate_project_already_exists (w : World) (target_dir : string) :
  Os.isdir (fs w) (cwd w) (Os.Abs (Os.abspath (cwd w) target_dir)) = true ->
  Os.isdir (fs w) (Os.abspath (cwd w) target_dir)
           (Os.Str (CProject.name (project w))) = true ->
  generate_project target_dir w =
  (Ok tt, after_already_exists (Os.abspath (cwd w) target_dir) w).
Proof.
  destruct w as [m d gp gm out p]. cbn [fs cwd project]. intros Hdir Hproj.
  destruct (isdir_abs _ _ _ Hdir) as [Hloc Hnode].
  unfold generate_project, mbind, M_bind, get_self, set_g_project_name,
    os_path_abspath, os_path_isdir, os_chdir, with_g_project_name, with_cwd.
  world_simpl. rewrite Hdir. cbn [negb].
  world_simpl. rewrite Hloc, Hnode. world_simpl.
  rewrite Hproj. reflexivity.
Qed.

End BuilderFacts.

(** *** Frame: the project object *)

Section Frame.

Lemma keeps_ret {A : Type} (a : A) : keeps_project (mret a : M A).
Proof. intros w. reflexivity. Qed.

Lemma keeps_bind {A B : Type} (m : M A) (k : A -> M B) :
  keeps_project m -> (forall a, keeps_project (k a)) -> keeps_project (m ≫= k).
Proof.
  intros Hm Hk w. unfold mbind, M_bind. specialize (Hm w).
  destruct (m w) as [[a|e] w1]; simpl in Hm |- *.
  - now rewrite Hk.
  - exact Hm.
Qed.

Lemma keeps_for_each {A : Type} (l : list A) (body : A -> M unit) :
  (forall x, keeps_project (body x)) -> keeps_project (for_each l body).
Proof.
  intros Hbody. induction l as [|x l IH]; simpl.
  - apply keeps_ret.
  - apply keeps_bind; [apply Hbody | intros _; exact IH].
Qed.

Lemma keeps_get_self : keeps_project get_self.
Proof. intros w. reflexivity. Qed.

Lemma keeps_get_g_project_name : keeps_project get_g_project_name.
Proof. intros w. reflexivity. Qed.

Lemma keeps_get_g_current_module : keeps_project get_g_current_module.
Proof. intros w. reflexivity. Qed.

Lemma keeps_set_g_project_name (v : option string) :
  keeps_project (set_g_project_name v).
Proof. intros w. reflexivity. Qed.

Lemma keeps_set_g_current_module (v : option string) :
  keeps_project (set_g_current_module v).
Proof. intros w. reflexivity. Qed.

Lemma keeps_print (line : string) : keeps_project (print line).
Proof. intros w. reflexivity. Qed.

Lemma keeps_os_path_abspath (s : string) : keeps_project (os_path_abspath s).
Proof. intros w. reflexivity. Qed.

Lemma keeps_os_path_isdir (a : Os.pypath) : keeps_project (os_path_isdir a).
Proof. intros w. reflexivity. Qed.

Lemma keeps_os_chdir (a : Os.pypath) : keeps_project (os_chdir a).
Proof.
  intros w. unfold os_chdir.
  destruct (Os.locate (fs w) (cwd w) a) as [q|e]; [|reflexivity].
  destruct (Os.node_at (fs w) q) as [[|content]|]; reflexivity.
Qed.

Lemma keeps_os_mkdir (s : string) : keeps_project (os_mkdir s).
Proof.
  intros w. unfold os_mkdir.
  destruct (String.eqb s ""); [reflexivity|].
  destruct (Os.namei _ _ _ _) as [q|e]; [|reflexivity].
  destruct (Os.node_at (fs w) q); reflexivity.
Qed.

Lemma keeps_with_open_w (name text : string) :
  keeps_project (with_open_w name text).
Proof.
  intros w. unfold with_open_w.
  destruct (Os.locate (fs w) (cwd w) (Os.Str name)) as [q|e]; [|reflexivity].
  destruct (Os.node_at (fs w) q) as [[|content]|]; reflexivity.
Qed.

Create HintDb keeps.

Hint Resolve keeps_ret keeps_get_self keeps_get_g_project_name
  keeps_get_g_current_module keeps_set_g_project_name
  keeps_set_g_current_module keeps_print keeps_os_path_abspath
  keeps_os_path_isdir keeps_os_chdir keeps_os_mkdir keeps_with_open_w
  : keeps.

Ltac keeps :=
  repeat first
    [ apply keeps_bind; [|intros ?]
    | apply keeps_for_each; intros ?
    | solve [auto with keeps] ].

Lemma keeps_generate_class_files (c : CClass.t) :
  keeps_project (generate_class_files c).
Proof.
  unfold generate_class_files, generate_header_file, generate_source_file.
  keeps.
Qed.

Lemma keeps_generate_cpp_source_files (m : CModule.t) :
  keeps_project (generate_cpp_source_files m).
Proof.
  unfold generate_cpp_source_files. keeps.
Qed.

Lemma keeps_generate_project (target_dir : string) :
  keeps_project (generate_project target_dir).
Proof.
  unfold generate_project, generate_source_files, generate_cmake_file.
  apply keeps_bind; [auto with keeps | intros self].
  apply keeps_bind; [auto with keeps | intros _].
  apply keeps_bind; [auto with keeps | intros target].
  apply keeps_bind; [auto with keeps | intros target_is_dir].
  destruct target_is_dir; cbn [negb]; [|auto with keeps].
  apply keeps_bind; [auto with keeps | intros _].
  apply keeps_bind; [auto with keeps | intros project_is_dir].
  destruct project_is_dir; [auto with keeps|].
  keeps.
Qed.

End Frame.

(** C3.  When the resolved target is not an existing directory,
    [generate_project] returns normally after printing that the target
    directory does not exist; when it is one and the project's name is a
    directory inside it, it returns normally after printing that the project
    directory already exists.  In both cases the filesystem map is the one
    it started with: no directory is made and no file written.  For a name
    that is a single path component, being a directory inside the target
    means that the map has a directory at [target/name]. *)
Theorem generate_project_refuses_without_writing (w : World) (target_dir : string) :
  let target := Os.abspath (cwd w) target_dir in
  let name := CProject.name (project w) in
  (Os.isdir (fs w) (cwd w) (Os.Abs target) = false ->
   exists w',
     generate_project target_dir w = (Ok tt, w')
     /\ stdout w' = stdout w ++ ["Error> target directory does not exist"]
     /\ fs w' = fs w)
  /\ (Os.isdir (fs w) (cwd w) (Os.Abs target) = true ->
      Os.isdir (fs w) target (Os.Str name) = true ->
      exists w',
        generate_project target_dir w = (Ok tt, w')
        /\ stdout w' = stdout w ++ ["Error> project directory already exists"]
        /\ fs w' = fs w)
  /\ (Os.isdir (fs w) (cwd w) (Os.Abs target) = true ->
      plain_name name = true ->
      fs w !! (target ++ [name]) = Some Dir ->
      exists w',
        generate_project target_dir w = (Ok tt, w')
        /\ stdout w' = stdout w ++ ["Error> project directory already exists"]
        /\ fs w' = fs w).
Proof.
  intros target name. split; [|split].
  - intros Hdir. exists (after_target_missing w).
    split; [now apply generate_project_target_missing | now split].
  - intros Hdir Hproj. exists (after_already_exists target w).
    split; [now apply generate_project_already_exists | now split].
  - intros Hdir Hplain Hnode. exists (after_already_exists target w).
    split; [|now split].
    apply generate_project_already_exists; [exact Hdir|].
    apply isdir_plain_name; [exact Hplain | | exact Hnode].
    now apply isdir_abs in Hdir as [_ Hd].
Qed.

Lemma generate_project_refuses_without_writing_witness :
  (exists w',
     generate_project "nowhere" Example.home = (Ok tt, w')
     /\ stdout w' = ["Error> target directory does not exist"]
     /\ fs w' = fs Example.home)
  /\ (exists w',
        generate_project "out" Example.home_with_demo = (Ok tt, w')
        /\ stdout w' = ["Error> project directory already exists"]
        /\ fs w' = fs Example.home_with_demo)
  /\ (exists w',
        generate_project "/home/./out/" Example.home_with_demo = (Ok tt, w')
        /\ stdout w' = ["Error> project directory already exists"]
        /\ fs w' = fs Example.home_with_demo).
Proof.
  destruct (generate_project_refuses_without_writing Example.home "nowhere")
    as (Hmissing & _ & _).
  destruct (generate_project_refuses_without_writing Example.home_with_demo "out")
    as (_ & Hexists & _).
  destruct (generate_project_refuses_without_writing Example.home_with_demo
              "/home/./out/") as (_ & _ & Hplain).
  split; [|split].
  - apply Hmissing. vm_compute. reflexivity.
  - apply Hexists; vm_compute; reflexivity.
  - apply Hplain; vm_compute; reflexivity.
Defined.

(** C9.  Whatever the target directory and however the call ends (success,
    a reported failure, or an exception of the operating system),
    [generate_project] leaves the project object as it was: its name, its
    namespace and its modules, with all that they hold. *)
Theorem generate_project_keeps_entity_tree (w : World) (target_dir : string) :
  let w' := (generate_project target_dir w).2 in
  project w' = project w
  /\ CProject.name (project w') = CProject.name (project w)
  /\ CProject.cppnamespace (project w') = CProject.cppnamespace (project w)
  /\ CProject.modules (project w') = CProject.modules (project w).
Proof.
  intros w'. assert (H : project w' = project w)
    by apply keeps_generate_project.
  rewrite H. repeat split.
Qed.

(** C10.  When [generate_project] reports that the project directory already
    exists, the message is printed in a world whose global project name is
    already the project's name and whose working directory is already the
    resolved target, and the call returns in that world: neither is put
    back. *)
Theorem already_exists_keeps_global_and_cwd (w : World) (target_dir : string) :
  let target := Os.abspath (cwd w) target_dir in
  let name := CProject.name (project w) in
  Os.isdir (fs w) (cwd w) (Os.Abs target) = true ->
  Os.isdir (fs w) target (Os.Str name) = true ->
  exists w1 w',
    g_project_name w1 = Some name /\ cwd w1 = target
    /\ generate_project target_dir w
       = print "Error> project directory already exists" w1
    /\ generate_project target_dir w = (Ok tt, w')
    /\ g_project_name w' = Some name /\ cwd w' = target.
Proof.
  intros target name Hdir Hproj.
  exists (with_cwd target (with_g_project_name (Some name) w)),
         (after_already_exists target w).
  rewrite (generate_project_already_exists w target_dir Hdir Hproj).
  repeat split.
Qed.

Lemma already_exists_keeps_global_and_cwd_witness :
  g_project_name Example.home_with_demo = None
  /\ cwd Example.home_with_demo = ["home"]
  /\ exists w1 w',
       g_project_name w1 = Some "demo" /\ cwd w1 = ["home"; "out"]
       /\ generate_project "out" Example.home_with_demo
          = print "Error> project directory already exists" w1
       /\ generate_project "out" Example.home_with_demo = (Ok tt, w')
       /\ g_project_name w' = Some "demo" /\ cwd w' = ["home"; "out"].
Proof.
  split; [reflexivity | split; [reflexivity|]].
  apply (already_exists_keeps_global_and_cwd Example.home_with_demo "out");
    vm_compute; reflexivity.
Defined.

(** C1.  The constructor keeps the namespace it is given and takes the
    project name when given none, so [CProject('demo', 'ns')] has the
    namespace [ns]; yet the header and the source file that
    [generate_project] writes for the class [Engine] of its module [core]
    open [namespace demo::core], after the project name, where the
    namespace field would give [ns::core]. *)
Theorem namespace_line_takes_project_name :
  (forall name cppnamespace : string,
     CProject.cppnamespace (CProject.init name cppnamespace) =
     if String.eqb cppnamespace "" then name else cppnamespace)
  /\ CProject.cppnamespace Example.demo = "ns"
  /\ (let w' := (generate_project "out" Example.home).2 in
      fs w' !! ["home"; "out"; "demo"; "core"; "Engine.h"] =
        Some (File (Py.lit
          "#pragma once\n\nnamespace demo::core\n{\n\tclass Engine\n\t{\n\tpublic:\n\t\tvoid run();\n\n\t};\n}\n"))
      /\ fs w' !! ["home"; "out"; "demo"; "core"; "Engine.cpp"] =
        Some (File (Py.lit
          "#include \qEngine.h\q\n\nnamespace demo::core\n{\n}\n"))).
Proof.
  split.
  - intros name [|c cppnamespace]; reflexivity.
  - vm_compute. repeat split.
Qed.

(** ** The builder at work *)

Section PathFacts.





(** A plain name is looked up one component below the directory. *)
Lemma locate_plain_name (m : gmap path node) (d : path) (s : string) :
  plain_name s = true ->
  Os.node_at m d = Some Dir ->
  Os.locate m d (Os.Str s) = Ok (d ++ [s]).
Proof.
  unfold plain_name. rewrite !andb_true_iff, !negb_true_iff.
  intros [[[Hne Hdot] Hdotdot] Hslash] Hdir.
  unfold Os.locate. rewrite Hne, (split_plain _ _ Hslash).
  assert (Habs : Os.is_absolute s = false).
  { destruct s as [|c s]; [reflexivity|]. simpl in Hslash.
    apply andb_true_iff in Hslash as [Hc _]. apply negb_true_iff in Hc.
    unfold Os.is_absolute. cbn [String.prefix].
    destruct (ascii_dec "/" c) as [<-|_]; [|reflexivity].
    now rewrite Ascii.eqb_refl in Hc. }
  unfold Os.start. rewrite Habs. cbn [Os.namei]. rewrite Hdir.
  unfold Os.dot_step. now rewrite Hne, Hdot, Hdotdot.
Qed.




End PathFacts.

Section BuildSteps.






End BuildSteps.

Section TreeFacts.









End TreeFacts.

Section SysCalls.





End SysCalls.

Section BuildModules.

Lemma removelast_snoc {A : Type} (d : list A) (x : A) : removelast (d ++ [x]) = d.
Proof. apply removelast_last. Qed.




End BuildModules.

Section BuildProject.






End BuildProject.

Section FileNames.






End FileNames.


Section TreeLookups.





End TreeLookups.





(** ** What the builder never does *)

Section Preserves.

Context (R : World -> World -> Prop) `{!Reflexive R} `{!Transitive R}.

Lemma preserves_ret {A : Type} (a : A) : preserves R (mret a : M A).
Proof. intros w. reflexivity. Qed.

Lemma preserves_bind {A B : Type} (m : M A) (k : A -> M B) :
  preserves R m -> (forall a, preserves R (k a)) -> preserves R (m ≫= k).
Proof.
  intros Hm Hk w. unfold mbind, M_bind. specialize (Hm w).
  destruct (m w) as [[a|e] w1]; cbn [snd] in *; [|exact Hm].
  etransitivity; [exact Hm | apply Hk].
Qed.

Lemma preserves_for_each {A : Type} (l : list A) (body : A -> M unit) :
  (forall x, preserves R (body x)) -> preserves R (for_each l body).
Proof.
  intros Hbody. induction l as [|x l IH]; cbn [for_each].
  - apply preserves_ret.
  - apply preserves_bind; [apply Hbody | intros _; exact IH].
Qed.

End Preserves.

#[local] Instance disk_grows_refl : Reflexive disk_grows.
Proof. intros w p. split; trivial. Qed.

#[local] Instance disk_grows_trans : Transitive disk_grows.
Proof.
  intros w1 w2 w3 H12 H23 p. destruct (H12 p), (H23 p). split; auto.
Qed.

#[local] Instance same_process_refl : Reflexive same_process.
Proof. intros w. repeat split. Qed.

#[local] Instance same_process_trans : Transitive same_process.
Proof.
  intros w1 w2 w3 (? & ? & ? & ?) (? & ? & ? & ?). repeat split; congruence.
Qed.

#[local] Instance same_session_refl : Reflexive same_session.
Proof. intros w. repeat split. Qed.

#[local] Instance same_session_trans : Transitive same_session.
Proof. intros w1 w2 w3 [? ?] [? ?]. split; congruence. Qed.

Section DiskGrows.

Lemma insert_grows (w : World) (q : path) (n : node) :
  fs w !! q <> Some Dir ->
  disk_grows w (with_fs (<[q := n]> (fs w)) w).
Proof.
  intros Hq p. destruct w as [m d gp gm out pr]. cbn in *.
  destruct (decide (q = p)) as [->|Hne].
  - rewrite lookup_insert_eq. split; [intros H; now apply Hq in H | eauto].
  - rewrite lookup_insert_ne by assumption. split; trivial.
Qed.

Lemma node_at_not_dir (m : gmap path node) (q : path) :
  Os.node_at m q <> Some Dir -> m !! q <> Some Dir.
Proof. destruct q; [intros H; now contradiction H | trivial]. Qed.

Lemma grows_set_g_project_name v : preserves disk_grows (set_g_project_name v).
Proof. intros w. destruct w; intros p; split; trivial. Qed.

Lemma grows_set_g_current_module v : preserves disk_grows (set_g_current_module v).
Proof. intros w. destruct w; intros p; split; trivial. Qed.

Lemma grows_print line : preserves disk_grows (print line).
Proof. intros w. destruct w; intros p; split; trivial. Qed.

Lemma grows_read {A : Type} (f : World -> A) :
  preserves disk_grows (fun w => (Ok (f w), w)).
Proof. intros w. reflexivity. Qed.

Lemma grows_os_chdir a : preserves disk_grows (os_chdir a).
Proof.
  intros w. unfold os_chdir.
  destruct (Os.locate (fs w) (cwd w) a) as [q|e]; [|reflexivity].
  destruct (Os.node_at (fs w) q) as [[|content]|]; try reflexivity.
  destruct w; intros p; split; trivial.
Qed.

Lemma grows_os_mkdir s : preserves disk_grows (os_mkdir s).
Proof.
  intros w. unfold os_mkdir.
  destruct (String.eqb s ""); [reflexivity|].
  destruct (Os.namei _ _ _ _) as [q|e]; [|reflexivity].
  destruct (Os.node_at (fs w) q) eqn:Hq; [reflexivity|].
  apply insert_grows, node_at_not_dir. congruence.
Qed.

Lemma grows_with_open_w name text : preserves disk_grows (with_open_w name text).
Proof.
  intros w. unfold with_open_w.
  destruct (Os.locate (fs w) (cwd w) (Os.Str name)) as [q|e];
    [|reflexivity].
  destruct (Os.node_at (fs w) q) as [[|content]|] eqn:Hq;
    [reflexivity | |];
    apply insert_grows, node_at_not_dir; congruence.
Qed.

End DiskGrows.

Section SameProcess.

Lemma process_with_open_w name text : preserves same_process (with_open_w name text).
Proof.
  intros w. unfold with_open_w.
  destruct (Os.locate (fs w) (cwd w) (Os.Str name)) as [q|e];
    [|reflexivity].
  destruct (Os.node_at (fs w) q) as [[|content]|];
    destruct w; repeat split.
Qed.

Lemma process_read {A : Type} (f : World -> A) :
  preserves same_process (fun w => (Ok (f w), w)).
Proof. intros w. reflexivity. Qed.

Lemma process_generate_class_files c : preserves same_process (generate_class_files c).
Proof.
  unfold generate_class_files, generate_header_file, generate_source_file.
  repeat first
    [ apply preserves_bind; [typeclasses eauto .. | | intros ?]
    | apply process_with_open_w
    | apply process_read ].
Qed.

Lemma process_os_mkdir s : preserves same_process (os_mkdir s).
Proof.
  intros w. unfold os_mkdir.
  destruct (String.eqb s ""); [reflexivity|].
  destruct (Os.namei _ _ _ _) as [q|e]; [|reflexivity].
  destruct (Os.node_at (fs w) q); destruct w; repeat split.
Qed.

End SameProcess.

Section SameSession.

Lemma session_read {A : Type} (f : World -> A) :
  preserves same_session (fun w => (Ok (f w), w)).
Proof. intros w. reflexivity. Qed.

Lemma session_set_g_current_module v :
  preserves same_session (set_g_current_module v).
Proof. intros w. destruct w. split; reflexivity. Qed.

Lemma session_os_chdir a : preserves same_session (os_chdir a).
Proof.
  intros w. unfold os_chdir.
  destruct (Os.locate (fs w) (cwd w) a) as [q|e]; [|reflexivity].
  destruct (Os.node_at (fs w) q) as [[|content]|]; destruct w; split; reflexivity.
Qed.

Lemma session_of_process {A : Type} (m : M A) :
  preserves same_process m -> preserves same_session m.
Proof. intros H w. destruct (H w) as (_ & Hgp & _ & Hout). now split. Qed.

End SameSession.

Ltac preserves_steps :=
  repeat first
    [ apply preserves_bind; [typeclasses eauto .. | | intros ?]
    | apply preserves_for_each; [typeclasses eauto .. | intros ?]
    | apply preserves_ret; typeclasses eauto
    | apply grows_set_g_project_name | apply grows_set_g_current_module
    | apply grows_print | apply grows_os_chdir | apply grows_os_mkdir
    | apply grows_with_open_w | apply grows_read
    | apply session_set_g_current_module | apply session_os_chdir
    | apply session_of_process, process_os_mkdir
    | apply session_of_process, process_with_open_w
    | apply session_of_process, process_generate_class_files
    | apply session_read ].

Section Never.

Lemma grows_generate_cpp_source_files md :
  preserves disk_grows (generate_cpp_source_files md).
Proof.
  unfold generate_cpp_source_files, generate_class_files,
    generate_header_file, generate_source_file,
    get_g_project_name, get_g_current_module.
  preserves_steps.
Qed.

Lemma session_generate_cpp_source_files md :
  preserves same_session (generate_cpp_source_files md).
Proof.
  unfold generate_cpp_source_files. preserves_steps.
Qed.

End Never.

(** X3.  Whatever the project, the target and the outcome,
    [generate_project] removes no path and leaves every directory a
    directory. *)
Theorem generate_project_never_removes (w : World) (target_dir : string) (p : path) :
  let w' := (generate_project target_dir w).2 in
  (fs w !! p = Some Dir -> fs w' !! p = Some Dir)
  /\ (is_Some (fs w !! p) -> is_Some (fs w' !! p)).
Proof.
  cbv zeta. revert w p.
  change (preserves disk_grows (generate_project target_dir)).
  unfold generate_project, generate_source_files, generate_cmake_file,
    get_self, os_path_abspath, os_path_isdir.
  apply preserves_bind; [typeclasses eauto .. | apply grows_read | intros self].
  apply preserves_bind;
    [typeclasses eauto .. | apply grows_set_g_project_name | intros _].
  apply preserves_bind; [typeclasses eauto .. | apply grows_read | intros target].
  apply preserves_bind;
    [typeclasses eauto .. | apply grows_read | intros target_is_dir].
  destruct target_is_dir; cbn [negb]; [|apply grows_print].
  apply preserves_bind; [typeclasses eauto .. | apply grows_os_chdir | intros _].
  apply preserves_bind;
    [typeclasses eauto .. | apply grows_read | intros project_is_dir].
  destruct project_is_dir; [apply grows_print|].
  apply preserves_bind; [typeclasses eauto .. | apply grows_os_mkdir | intros _].
  apply preserves_bind; [typeclasses eauto .. | apply grows_os_chdir | intros _].
  apply preserves_bind; [typeclasses eauto .. | | intros _].
  - apply preserves_for_each; [typeclasses eauto .. | intros md].
    apply grows_generate_cpp_source_files.
  - apply preserves_ret. typeclasses eauto.
Qed.

Section Leaves.

Lemma os_chdir_result (a : Os.pypath) (w : World) :
  match os_chdir a w with
  | (Ok _, w') => exists q, Os.locate (fs w) (cwd w) a = Ok q /\ w' = with_cwd q w
  | (Raise _, w') => w' = w
  end.
Proof.
  unfold os_chdir. destruct (Os.locate (fs w) (cwd w) a) as [q|e]; [|reflexivity].
  destruct (Os.node_at (fs w) q) as [[|content]|]; [|reflexivity..].
  now exists q.
Qed.

Lemma locate_plain_inv (m : gmap path node) (d q : path) (s : string) :
  plain_name s = true -> Os.locate m d (Os.Str s) = Ok q -> q = d ++ [s].
Proof.
  intros Hs Hq. destruct (Os.node_at m d) as [[|content]|] eqn:Hd.
  - rewrite (locate_plain_name _ _ _ Hs Hd) in Hq. now injection Hq.
  - exfalso. revert Hq. unfold Os.locate.
    destruct (String.eqb s ""); [discriminate|].
    destruct (Py.split "/" s) as [|c comps] eqn:Hsplit.
    + destruct (split_cons "/" s) as (? & ? & ?). congruence.
    + unfold plain_name in Hs. rewrite !andb_true_iff in Hs.
      destruct Hs as [_ Hslash].
      assert (Habs : Os.start d s = d).
      { unfold Os.start, Os.is_absolute. destruct s as [|a s]; [reflexivity|].
        cbn [String.prefix]. simpl in Hslash.
        apply andb_true_iff in Hslash as [Ha _]. apply negb_true_iff in Ha.
        destruct (ascii_dec "/" a) as [<-|_]; [|reflexivity].
        now rewrite Ascii.eqb_refl in Ha. }
      rewrite Habs. cbn [Os.namei]. rewrite Hd. discriminate.
  - exfalso. revert Hq. unfold Os.locate.
    destruct (String.eqb s ""); [discriminate|].
    destruct (Py.split "/" s) as [|c comps] eqn:Hsplit.
    + destruct (split_cons "/" s) as (? & ? & ?). congruence.
    + unfold plain_name in Hs. rewrite !andb_true_iff in Hs.
      destruct Hs as [_ Hslash].
      assert (Habs : Os.start d s = d).
      { unfold Os.start, Os.is_absolute. destruct s as [|a s]; [reflexivity|].
        cbn [String.prefix]. simpl in Hslash.
        apply andb_true_iff in Hslash as [Ha _]. apply negb_true_iff in Ha.
        destruct (ascii_dec "/" a) as [<-|_]; [|reflexivity].
        now rewrite Ascii.eqb_refl in Ha. }
      rewrite Habs. cbn [Os.namei]. rewrite Hd. discriminate.
Qed.

Lemma locate_up_inv (m : gmap path node) (d q : path) :
  Os.locate m d (Os.Str "..") = Ok q -> q = removelast d.
Proof.
  unfold Os.locate. change (String.eqb ".." "") with false. cbv iota.
  change (Os.start d "..") with d. change (Py.split "/" "..") with [".."].
  cbn [Os.namei]. destruct (Os.node_at m d) as [[|content]|]; try discriminate.
  change (Os.dot_step d "..") with (removelast d). now intros [= <-].
Qed.

End Leaves.

(** X4.  [generate_cpp_source_files] resets [g_current_module] to [None]
    exactly when it returns normally; when it raises, the global still
    holds the module's name.  For a module name that is a single path
    component, a normal return leaves the working directory where it was,
    and an exception leaves it there or inside the module directory. *)
Theorem generate_cpp_source_files_leaves (md : CModule.t) (w : World) :
  match generate_cpp_source_files md w with
  | (Ok _, w') =>
      g_current_module w' = None
      /\ (plain_name (CModule.name md) = true -> cwd w' = cwd w)
  | (Raise _, w') =>
      g_current_module w' = Some (CModule.name md)
      /\ (plain_name (CModule.name md) = true ->
          cwd w' = cwd w \/ cwd w' = cwd w ++ [CModule.name md])
  end.
Proof.
  unfold generate_cpp_source_files, mbind, M_bind, set_g_current_module.
  assert (H1 : g_current_module (with_g_current_module (Some (CModule.name md)) w)
               = Some (CModule.name md) /\
               cwd (with_g_current_module (Some (CModule.name md)) w) = cwd w)
    by now destruct w.
  destruct H1 as [Hgm1 Hcwd1].
  generalize dependent (with_g_current_module (Some (CModule.name md)) w).
  intros w1 Hgm1 Hcwd1.
  pose proof (process_os_mkdir (CModule.name md) w1) as Hmk.
  destruct (os_mkdir (CModule.name md) w1) as [[[]|e] w2]; cbn [snd] in Hmk;
    destruct Hmk as (Hcwd2 & _ & Hgm2 & _);
    [|split; [congruence | intros _; left; congruence]].
  pose proof (os_chdir_result (Os.Str (CModule.name md)) w2) as Hcd.
  destruct (os_chdir (Os.Str (CModule.name md)) w2) as [[[]|e] w3];
    [destruct Hcd as (q & Hq & ->)
    | subst w3; split; [congruence | intros _; left; congruence]].
  pose proof (preserves_for_each same_process (CModule.classes md)
                (fun cppclass => generate_class_files cppclass)
                process_generate_class_files (with_cwd q w2)) as Hcs.
  destruct (for_each (CModule.classes md) _ (with_cwd q w2)) as [[[]|e] w4];
    cbn [snd] in Hcs; destruct Hcs as (Hcwd4 & _ & Hgm4 & _);
    assert (Hgm3 : g_current_module (with_cwd q w2) = g_current_module w2)
      by (now destruct w2);
    assert (Hcwd3 : cwd (with_cwd q w2) = q) by (now destruct w2).
  - pose proof (os_chdir_result (Os.Str "..") w4) as Hup.
    destruct (os_chdir (Os.Str "..") w4) as [[[]|e] w5].
    + destruct Hup as (q' & Hq' & ->). split; [now destruct w4|].
      intros Hplain. apply locate_up_inv in Hq'.
      apply (locate_plain_inv _ _ _ _ Hplain) in Hq.
      replace (cwd (with_g_current_module None (with_cwd q' w4))) with q'
        by now destruct w4.
      rewrite Hq', Hcwd4, Hcwd3, Hq, removelast_snoc. congruence.
    + subst w5. split; [congruence|]. intros Hplain. right.
      apply (locate_plain_inv _ _ _ _ Hplain) in Hq. congruence.
  - split; [congruence|]. intros Hplain. right.
    apply (locate_plain_inv _ _ _ _ Hplain) in Hq. congruence.
Qed.

Lemma generate_cpp_source_files_leaves_witness :
  (let r := generate_cpp_source_files Sample.ui (Sample.world_of Sample.app) in
   r.1 = Ok tt /\ g_current_module r.2 = None /\ cwd r.2 = ["home"])
  /\ (let r := generate_cpp_source_files Sample.net (Sample.world_of Sample.app) in
      r.1 = Raise FileNotFoundError
      /\ g_current_module r.2 = Some "net"
      /\ (cwd r.2 = ["home"] \/ cwd r.2 = ["home"; "net"])
      /\ cwd r.2 <> ["home"]).
Proof.
  split.
  - pose proof (generate_cpp_source_files_leaves Sample.ui
                  (Sample.world_of Sample.app)) as H.
    destruct (generate_cpp_source_files Sample.ui _) as [[[]|e] w'] eqn:E;
      [|vm_compute in E; discriminate].
    destruct H as [Hgm Hcwd]. cbn [fst snd]. split; [reflexivity|].
    split; [exact Hgm|]. apply Hcwd. vm_compute. reflexivity.
  - pose proof (generate_cpp_source_files_leaves Sample.net
                  (Sample.world_of Sample.app)) as H.
    destruct (generate_cpp_source_files Sample.net _) as [[[]|e] w'] eqn:E;
      [vm_compute in E; discriminate|].
    destruct H as [Hgm Hcwd]. cbn [fst snd].
    split; [vm_compute in E; congruence|].
    split; [exact Hgm|]. split; [apply Hcwd; vm_compute; reflexivity|].
    vm_compute in E. injection E as _ <-. discriminate.
Defined.

Section Proceeds.

Lemma generate_project_proceeds (w : World) (target_dir : string) :
  let target := Os.abspath (cwd w) target_dir in
  let name := CProject.name (project w) in
  Os.isdir (fs w) (cwd w) (Os.Abs target) = true ->
  Os.isdir (fs w) target (Os.Str name) = false ->
  generate_project target_dir w =
  (os_mkdir name ;; os_chdir (Os.Str name) ;;
   generate_source_files (project w) ;; generate_cmake_file (project w))
    (with_cwd target (with_g_project_name (Some name) w)).
Proof.
  intros target name Hdir Hproj.
  destruct (isdir_abs _ _ _ Hdir) as [Hloc Hnode].
  assert (Hcd : forall v, os_chdir (Os.Abs target) (with_g_project_name v w)
                          = (Ok tt, with_cwd target (with_g_project_name v w))).
  { intros v. unfold os_chdir. destruct w; cbn in *. now rewrite Hloc, Hnode. }
  unfold generate_project, mbind, M_bind,
    get_self, set_g_project_name, os_path_abspath, os_path_isdir.
  replace (cwd (with_g_project_name (Some (CProject.name (project w))) w))
    with (cwd w) by now destruct w.
  replace (fs (with_g_project_name (Some (CProject.name (project w))) w))
    with (fs w) by now destruct w.
  fold target name. rewrite Hdir. cbn [negb]. rewrite Hcd.
  replace (Os.isdir _ _ (Os.Str name)) with false by now destruct w.
  reflexivity.
Qed.

Lemma session_build (p : CProject.t) :
  preserves same_session
    (os_mkdir (CProject.name p) ;; os_chdir (Os.Str (CProject.name p)) ;;
     generate_source_files p ;; generate_cmake_file p).
Proof.
  unfold generate_source_files, generate_cmake_file.
  apply preserves_bind;
    [typeclasses eauto .. | apply session_of_process, process_os_mkdir | intros _].
  apply preserves_bind; [typeclasses eauto .. | apply session_os_chdir | intros _].
  apply preserves_bind; [typeclasses eauto .. | | intros _].
  - apply preserves_for_each; [typeclasses eauto .. | intros md].
    apply session_generate_cpp_source_files.
  - apply preserves_ret. typeclasses eauto.
Qed.

End Proceeds.

(** X5.  After [generate_project], however it ends, [g_project_name] is the
    project's name.  It prints at most one line, and when it prints it has
    returned normally without touching the disk. *)
Theorem generate_project_prints_only_when_it_refuses
    (w : World) (target_dir : string) :
  let r := generate_project target_dir w in
  g_project_name r.2 = Some (CProject.name (project w))
  /\ (stdout r.2 = stdout w
      \/ (r.1 = Ok tt /\ fs r.2 = fs w
          /\ exists line, stdout r.2 = stdout w ++ [line])).
Proof.
  cbv zeta.
  destruct (Os.isdir (fs w) (cwd w) (Os.Abs (Os.abspath (cwd w) target_dir)))
    eqn:Hdir.
  - destruct (Os.isdir (fs w) (Os.abspath (cwd w) target_dir)
                (Os.Str (CProject.name (project w)))) eqn:Hproj.
    + rewrite (generate_project_already_exists w target_dir Hdir Hproj).
      split; [reflexivity|]. right. repeat split. now eexists.
    + rewrite (generate_project_proceeds w target_dir Hdir Hproj).
      destruct (session_build (project w)
                  (with_cwd (Os.abspath (cwd w) target_dir)
                     (with_g_project_name (Some (CProject.name (project w))) w)))
        as [Hgp Hout].
      rewrite Hgp, Hout. split; [now destruct w | left; now destruct w].
  - rewrite (generate_project_target_missing w target_dir Hdir).
    split; [reflexivity|]. right. repeat split. now eexists.
Qed.

(** ** More about names *)

Section SanitizeFacts.

Lemma replace_char_app (c : ascii) (new a b : string) :
  Py.replace (String c "") new (a +:+ b) =
  Py.replace (String c "") new a +:+ Py.replace (String c "") new b.
Proof.
  induction a as [|x a IH]; [reflexivity|].
  rewrite sapp_cons, !replace_char_cons, IH.
  destruct (Ascii.eqb x c); [now rewrite sapp_assoc | now rewrite sapp_cons].
Qed.

Lemma re_sub_outside_app (keep : ascii -> bool) (a b : string) :
  Py.re_sub_outside keep (a +:+ b) =
  Py.re_sub_outside keep a +:+ Py.re_sub_outside keep b.
Proof.
  induction a as [|x a IH]; [reflexivity|].
  rewrite sapp_cons. simpl. rewrite IH. now destruct (keep x).
Qed.

Lemma replace_char_length (c d : ascii) (s : string) :
  String.length (Py.replace (String c "") (String d "") s) = String.length s.
Proof.
  induction s as [|x s IH]; [reflexivity|].
  rewrite replace_char_cons.
  destruct (Ascii.eqb x c); [rewrite sapp_cons, sapp_nil_l|];
    cbn [String.length]; now rewrite IH.
Qed.

Lemma re_sub_outside_length (keep : ascii -> bool) (s : string) :
  (String.length (Py.re_sub_outside keep s) <= String.length s)%nat.
Proof.
  induction s as [|x s IH]; [reflexivity|].
  simpl. destruct (keep x); simpl; lia.
Qed.


End SanitizeFacts.

(** X6.  The sanitizer works character by character: the name made from
    two texts put together is the two names put together.  It leaves a
    text as it is exactly when the text is made of [[A-Za-z0-9_]] only,
    and it never makes a text longer. *)
Theorem sanitize_append_fixed_shorter (a b : string) :
  sanitize (a +:+ b) = sanitize a +:+ sanitize b
  /\ (sanitize a = a <-> Py.all_chars is_name_char a = true)
  /\ (String.length (sanitize a) <= String.length a)%nat.
Proof.
  split; [|split].
  - unfold sanitize. cbv zeta. now rewrite replace_char_app, re_sub_outside_app.
  - split.
    + intros H. rewrite <- H. apply re_sub_outside_all.
    + intros H. unfold sanitize. cbv zeta.
      rewrite replace_char_id; [now apply re_sub_outside_id|].
      eapply all_chars_impl; [apply name_char_not_space | exact H].
  - unfold sanitize. cbv zeta.
    etransitivity; [apply re_sub_outside_length|].
    now rewrite (replace_char_length " " "_").
Qed.



Section EmptyName.



End EmptyName.



(** ** The class table *)

Section ClassTable.

Lemma member_cell_spec (names : list string) (public_count i : nat)
    (ty : option string) :
  names <> [] ->
  (i = 0%nat \/ ty = Some (shown_type (length names) public_count (i - 1))) ->
  member_cell names public_count i ty =
  (default "" (names !! i), Some (shown_type (length names) public_count i)).
Proof.
  intros Hne Hty. unfold member_cell, shown_type in *.
  assert (Hlen : (0 < length names)%nat) by (destruct names; [congruence | simpl; lia]).
  destruct (Nat.ltb_spec i (length names)) as [Hi|Hi].
  - now replace (Nat.min i (length names - 1)) with i by lia.
  - rewrite lookup_ge_None_2 by lia. cbn [default].
    destruct Hty as [->| ->]; [lia|].
    now replace (Nat.min (i - 1) (length names - 1))
      with (Nat.min i (length names - 1)) by lia.
Qed.

Lemma member_rows_spec (c : CClass.t) (count i : nat)
    (fn_type var_type : option string) (table : Table.t) :
  let all_fns := map CFunction.name (CClass.public_functions c)
                 ++ map CFunction.name (CClass.private_functions c) in
  let all_vars := CClass.public_variables c ++ CClass.private_variables c in
  all_fns <> [] -> all_vars <> [] ->
  (i = 0%nat \/
   (fn_type = Some (shown_type (length all_fns)
                      (length (CClass.public_functions c)) (i - 1))
    /\ var_type = Some (shown_type (length all_vars)
                          (length (CClass.public_variables c)) (i - 1)))) ->
  member_rows c all_fns all_vars count i fn_type var_type table =
  Got {| Table.columns := Table.columns table;
         Table.rows := Table.rows table
                       ++ map (expected_member_row c) (seq i count) |}.
Proof.
  intros all_fns all_vars Hf Hv.
  revert i fn_type var_type table.
  induction count as [|count IH]; intros i fn_type var_type table Hty.
  - cbn. rewrite app_nil_r. now destruct table.
  - cbn [member_rows].
    rewrite (member_cell_spec all_fns _ i fn_type Hf) by tauto.
    rewrite (member_cell_spec all_vars _ i var_type Hv) by tauto.
    rewrite IH.
    + cbn [Table.add_row Table.columns Table.rows seq map].
      now rewrite <- app_assoc.
    + right. now replace (S i - 1)%nat with i by lia.
Qed.

End ClassTable.

(** X9.  The table of a class.  When the class has variables and no
    function, or functions and no variable, [render_class_table] stops at
    its first member row with [UnboundLocalError], on the local that no
    iteration has bound.  Otherwise the table has the three columns, the
    row of the class name, and one row for every index below the length of
    the longer member list; a column that has run out of members shows an
    empty name, with the label of the last member of the column. *)
Theorem class_table_rows_or_unbound_local (c : CClass.t) :
  let all_fns := map CFunction.name (CClass.public_functions c)
                 ++ map CFunction.name (CClass.private_functions c) in
  let all_vars := CClass.public_variables c ++ CClass.private_variables c in
  class_table c =
  match all_fns, all_vars with
  | [], _ :: _ => Threw (UnboundLocalError "fn_type")
  | _ :: _, [] => Threw (UnboundLocalError "var_type")
  | _, _ =>
      Got {| Table.columns := ["Class Name"; "Functions"; "Members Variables"];
             Table.rows :=
               [CClass.name c]
               :: map (expected_member_row c)
                    (seq 0 (Nat.max (length all_fns) (length all_vars))) |}
  end.
Proof.
  intros all_fns all_vars. unfold class_table. cbv zeta.
  fold all_fns all_vars.
  destruct all_fns as [|f fns] eqn:Hf, all_vars as [|v vars] eqn:Hv.
  - reflexivity.
  - reflexivity.
  - cbn [length Nat.max member_rows member_cell].
    change (0 <? S (length fns))%nat with true. cbv iota. reflexivity.
  - subst all_fns all_vars. rewrite <- Hf, <- Hv.
    rewrite member_rows_spec; [reflexivity | congruence.. | now left].
Qed.

(** ** The menus and the project *)

Section KeepsTree.

Lemma keeps_tree_ret {A : Type} (a : A) : keeps_tree (mret a : IO A).
Proof. intros s. reflexivity. Qed.

Lemma keeps_tree_bind {A B : Type} (m : IO A) (k : A -> IO B) :
  keeps_tree m -> (forall a, keeps_tree (k a)) -> keeps_tree (m ≫= k).
Proof.
  intros Hm Hk s. unfold mbind, IO_bind. specialize (Hm s).
  destruct (m s) as [[a|e| | |] s1]; cbn [snd] in *; try exact Hm.
  now rewrite Hk.
Qed.

Lemma keeps_tree_try {A : Type} (body handler : IO A) :
  keeps_tree body -> keeps_tree handler ->
  keeps_tree (try_except_KeyboardInterrupt body handler).
Proof.
  intros Hb Hh s. unfold try_except_KeyboardInterrupt. specialize (Hb s).
  destruct (body s) as [[a|[]| | |] s1]; cbn [snd] in *; try exact Hb.
  now rewrite Hh.
Qed.

Lemma keeps_tree_throw {A : Type} (e : pyexc) : keeps_tree (throw e : IO A).
Proof. intros s. reflexivity. Qed.

Lemma keeps_tree_off_contract {A : Type} : keeps_tree (off_contract : IO A).
Proof. intros s. reflexivity. Qed.

Lemma keeps_tree_out_of_fuel {A : Type} : keeps_tree (out_of_fuel : IO A).
Proof. intros s. reflexivity. Qed.

Lemma keeps_tree_emit (e : event) : keeps_tree (emit e).
Proof. intros s. reflexivity. Qed.

Lemma keeps_tree_get_project : keeps_tree get_project.
Proof. intros s. reflexivity. Qed.

Lemma keeps_tree_read_module (module : option nat) : keeps_tree (read_module module).
Proof. intros s. reflexivity. Qed.

Lemma keeps_tree_next_reply prompt choices : keeps_tree (next_reply prompt choices).
Proof. intros s. unfold next_reply. now destruct (keyboard s). Qed.

Lemma keeps_tree_int (s : string) : keeps_tree (int s).
Proof.
  unfold int. destruct s; [apply keeps_tree_throw|].
  destruct (digits_value _ _); [apply keeps_tree_ret | apply keeps_tree_throw].
Qed.

Lemma keeps_tree_Prompt_ask prompt choices : keeps_tree (Prompt_ask prompt choices).
Proof.
  unfold Prompt_ask. apply keeps_tree_bind; [apply keeps_tree_next_reply|].
  intros [text|yes|]; [|apply keeps_tree_off_contract | apply keeps_tree_throw].
  destruct choices as [allowed|]; [|apply keeps_tree_ret].
  case_bool_decide; [apply keeps_tree_ret | apply keeps_tree_off_contract].
Qed.

Lemma keeps_tree_Confirm_ask prompt : keeps_tree (Confirm_ask prompt).
Proof.
  unfold Confirm_ask. apply keeps_tree_bind; [apply keeps_tree_next_reply|].
  intros [text|yes|];
    [apply keeps_tree_off_contract | apply keeps_tree_ret | apply keeps_tree_throw].
Qed.

End KeepsTree.

Ltac keeps_tree_steps :=
  repeat first
    [ apply keeps_tree_ret | apply keeps_tree_throw
    | apply keeps_tree_off_contract | apply keeps_tree_out_of_fuel
    | apply keeps_tree_emit | apply keeps_tree_get_project
    | apply keeps_tree_read_module | apply keeps_tree_int
    | apply keeps_tree_Prompt_ask | apply keeps_tree_Confirm_ask
    | apply keeps_tree_bind; [|intros ?] ].

Section Renderers.

Lemma keeps_tree_render_project_table : keeps_tree render_project_table.
Proof. unfold render_project_table, console_print. keeps_tree_steps. Qed.

Lemma keeps_tree_render_module_table m : keeps_tree (render_module_table m).
Proof.
  unfold render_module_table, console_print. destruct m; keeps_tree_steps.
Qed.

Lemma keeps_tree_render_class_table c : keeps_tree (render_class_table c).
Proof.
  unfold render_class_table, console_print. destruct c as [c|]; [|keeps_tree_steps].
  destruct (class_table c); keeps_tree_steps.
Qed.

Lemma keeps_tree_class_menu (fuel : nat) c : keeps_tree (class_menu fuel c).
Proof.
  induction fuel as [|fuel IH]; cbn [class_menu]; [apply keeps_tree_out_of_fuel|].
  unfold console_print, clear_screen.
  apply keeps_tree_bind; [apply keeps_tree_render_class_table | intros _].
  keeps_tree_steps.
  match goal with |- keeps_tree (if ?b then _ else _) => destruct b end;
    keeps_tree_steps. exact IH.
Qed.

Lemma keeps_tree_show_class_controls (fuel : nat) c :
  keeps_tree (show_class_controls fuel c).
Proof.
  apply keeps_tree_try; [apply keeps_tree_class_menu | apply keeps_tree_ret].
Qed.

End Renderers.

Section FromTree.

Context (T : CProject.t -> CProject.t -> Prop) `{!Reflexive T} `{!Transitive T}.

Lemma from_tree_keeps {A : Type} (t : CProject.t) (m : IO A) :
  keeps_tree m -> from_tree t T m.
Proof. intros Hm s <-. rewrite Hm. reflexivity. Qed.

Lemma from_tree_bind {A B : Type} (t : CProject.t) (m : IO A) (k : A -> IO B) :
  from_tree t T m ->
  (forall a t', T t t' -> from_tree t' T (k a)) ->
  from_tree t T (m ≫= k).
Proof.
  intros Hm Hk s Hs. unfold mbind, IO_bind. specialize (Hm s Hs).
  destruct (m s) as [[a|e| | |] s1]; cbn [snd] in *; try exact Hm.
  etransitivity; [exact Hm|]. now apply (Hk a (tree s1)).
Qed.

Lemma from_tree_bind_keeps {A B : Type} (t : CProject.t) (m : IO A) (k : A -> IO B) :
  keeps_tree m ->
  (forall a, from_tree t T (k a)) ->
  from_tree t T (m ≫= k).
Proof.
  intros Hm Hk s Hs. unfold mbind, IO_bind. specialize (Hm s).
  destruct (m s) as [[a|e| | |] s1]; cbn [snd] in *;
    try (rewrite Hm, Hs; reflexivity).
  apply Hk. congruence.
Qed.

Lemma from_tree_get {A : Type} (t : CProject.t) (k : CProject.t -> IO A) :
  from_tree t T (k t) -> from_tree t T (get_project ≫= k).
Proof. intros Hk s Hs. unfold mbind, IO_bind, get_project. rewrite Hs. now apply Hk. Qed.

Lemma from_tree_read_module {A : Type} (t : CProject.t) (module : option nat)
    (k : option CModule.t -> IO A) :
  from_tree t T (k (match module with
                    | Some i => CProject.modules t !! i
                    | None => None
                    end)) ->
  from_tree t T (read_module module ≫= k).
Proof.
  intros Hk s Hs. unfold mbind, IO_bind, read_module. rewrite Hs. now apply Hk.
Qed.

Lemma from_tree_set (t p : CProject.t) : T t p -> from_tree t T (set_project p).
Proof. intros Hp s Hs. exact Hp. Qed.

Lemma from_tree_try {A : Type} (t : CProject.t) (body handler : IO A) :
  from_tree t T body ->
  (forall t', T t t' -> from_tree t' T handler) ->
  from_tree t T (try_except_KeyboardInterrupt body handler).
Proof.
  intros Hb Hh s Hs. unfold try_except_KeyboardInterrupt. specialize (Hb s Hs).
  destruct (body s) as [[a|[]| | |] s1]; cbn [snd] in *; try exact Hb.
  etransitivity; [exact Hb|]. now apply (Hh (tree s1)).
Qed.

End FromTree.

#[local] Instance menu_edits_refl : Reflexive menu_edits.
Proof.
  intros t. split; [reflexivity|]. split; [now left|].
  apply Forall_forall. intros m Hm. split; [left; now exists m|].
  apply Forall_forall. intros c Hc. left. now exists m.
Qed.

#[local] Instance menu_edits_trans : Transitive menu_edits.
Proof.
  intros t1 t2 t3 (Hns12 & Hn12 & Hm12) (Hns23 & Hn23 & Hm23).
  rewrite Forall_forall in Hm12.
  split; [congruence|]. split.
  - destruct Hn23 as [Heq|Hs]; [rewrite Heq; exact Hn12 | now right].
  - apply Forall_forall. intros m3 Hin3.
    rewrite Forall_forall in Hm23. destruct (Hm23 m3 Hin3) as [Hname Hcs]. split.
    + destruct Hname as [(m2 & Hin2 & Heq)|Hs]; [|now right].
      rewrite Heq. now destruct (Hm12 m2 Hin2) as [Hname2 _].
    + apply Forall_forall. intros c Hc. rewrite Forall_forall in Hcs.
      destruct (Hcs c Hc) as [(m2 & Hin2 & Hc2)|Hnew]; [|now right].
      destruct (Hm12 m2 Hin2) as [_ Hcs2]. rewrite Forall_forall in Hcs2.
      now apply Hcs2.
Qed.

Section MenuEdits.

Lemma menu_edits_own_modules (t : CProject.t) :
  Forall (fun m' =>
    ((exists m, m ∈ CProject.modules t /\ CModule.name m' = CModule.name m)
     \/ sanitized (CModule.name m'))
    /\ Forall (fun c =>
         (exists m, m ∈ CProject.modules t /\ c ∈ CModule.classes m)
         \/ exists raw, c = CClass.init (sanitize raw))
         (CModule.classes m'))
    (CProject.modules t).
Proof. now destruct (menu_edits_refl t) as (_ & _ & H). Qed.

(** An assignment to the module at [i]. *)
Lemma menu_edits_write (t : CProject.t) (i : nat) (self m' : CModule.t) :
  CProject.modules t !! i = Some self ->
  (CModule.name m' = CModule.name self \/ sanitized (CModule.name m')) ->
  Forall (fun c => c ∈ CModule.classes self \/ exists raw, c = CClass.init (sanitize raw))
         (CModule.classes m') ->
  menu_edits t {| CProject.name := CProject.name t;
                  CProject.cppnamespace := CProject.cppnamespace t;
                  CProject.modules := <[i := m']> (CProject.modules t) |}.
Proof.
  intros Hself Hname Hcs. apply list_elem_of_lookup_2 in Hself.
  split; [reflexivity|]. split; [now left|]. cbn.
  apply Forall_insert; [apply menu_edits_own_modules|]. split.
  - destruct Hname as [Heq|Hs]; [left; now exists self | now right].
  - eapply Forall_impl; [exact Hcs|]. intros c [Hc|Hnew]; [left; now exists self | now right].
Qed.

Lemma from_tree_write_module (t : CProject.t) (i : nat) (self m' : CModule.t) :
  CProject.modules t !! i = Some self ->
  (CModule.name m' = CModule.name self \/ sanitized (CModule.name m')) ->
  Forall (fun c => c ∈ CModule.classes self \/ exists raw, c = CClass.init (sanitize raw))
         (CModule.classes m') ->
  from_tree t menu_edits (write_module i m').
Proof.
  intros Hself Hname Hcs. unfold write_module.
  apply from_tree_get, from_tree_set. now apply (menu_edits_write t i self).
Qed.

Lemma remove_class_sub (self self' : CModule.t) (n : string) :
  CModule.remove_class self n = Ok self' ->
  CModule.name self' = CModule.name self
  /\ Forall (fun c => c ∈ CModule.classes self) (CModule.classes self').
Proof.
  unfold CModule.remove_class.
  destruct (remove_class_loop_spec [] (CModule.classes self) n (List.Forall_nil _))
    as [(mid & c & post & Hl & _ & _ & Hrun)|[_ Hrun]];
    cbn [app] in Hrun; rewrite Hrun; intros [= <-]; cbn; split; try reflexivity.
  - rewrite Hl. apply Forall_forall. intros x Hx.
    apply elem_of_app in Hx as [Hx|Hx]; apply elem_of_app;
      [now left | right; apply elem_of_cons; now right].
  - now apply Forall_forall.
Qed.

Lemma remove_module_sub (p p' : CProject.t) (n : string) :
  CProject.remove_module p n = Ok p' ->
  CProject.name p' = CProject.name p
  /\ CProject.cppnamespace p' = CProject.cppnamespace p
  /\ Forall (fun m => m ∈ CProject.modules p) (CProject.modules p').
Proof.
  unfold CProject.remove_module.
  destruct (remove_module_loop_spec [] (CProject.modules p) n (List.Forall_nil _))
    as [(mid & c & post & Hl & _ & _ & Hrun)|[_ Hrun]];
    cbn [app] in Hrun; rewrite Hrun; intros [= <-]; cbn;
    split; try reflexivity; split; try reflexivity.
  - rewrite Hl. apply Forall_forall. intros x Hx.
    apply elem_of_app in Hx as [Hx|Hx]; apply elem_of_app;
      [now left | right; apply elem_of_cons; now right].
  - now apply Forall_forall.
Qed.

End MenuEdits.

Ltac from_tree_keeps_step lem :=
  apply from_tree_bind_keeps; [typeclasses eauto .. | apply lem | intros ?].

Ltac from_tree_keeps_steps :=
  repeat match goal with
         | |- from_tree _ _ (emit _ ≫= _) => from_tree_keeps_step keeps_tree_emit
         | |- from_tree _ _ (Prompt_ask _ _ ≫= _) =>
             from_tree_keeps_step keeps_tree_Prompt_ask
         | |- from_tree _ _ (int _ ≫= _) => from_tree_keeps_step keeps_tree_int
         | |- from_tree _ _ (render_project_table ≫= _) =>
             from_tree_keeps_step keeps_tree_render_project_table
         end.

Section Menus.

Lemma from_tree_module_menu (fuel : nat) (module : option nat) (t : CProject.t) :
  from_tree t menu_edits (module_menu fuel module).
Proof.
  revert t. induction fuel as [|fuel IH]; intros t; cbn [module_menu].
  - apply from_tree_keeps; [typeclasses eauto .. | apply keeps_tree_out_of_fuel].
  - apply from_tree_read_module.
    apply from_tree_bind_keeps;
      [typeclasses eauto .. | apply keeps_tree_render_module_table | intros _].
    destruct module as [i|];
      [|apply from_tree_keeps; [typeclasses eauto .. | apply keeps_tree_throw]].
    destruct (CProject.modules t !! i) as [self|] eqn:Hself;
      [|apply from_tree_keeps; [typeclasses eauto .. | apply keeps_tree_throw]].
    unfold console_print, clear_screen. from_tree_keeps_steps.
    match goal with |- from_tree _ _ (if ?b then _ else _) => destruct b end;
      [apply from_tree_keeps; [typeclasses eauto .. | apply keeps_tree_ret]|].
    apply from_tree_bind; [typeclasses eauto .. | |].
    + repeat match goal with
             | |- from_tree _ _ (if ?b then _ else _) => destruct b
             end.
      * apply from_tree_keeps; [typeclasses eauto ..|].
        apply keeps_tree_bind; [apply keeps_tree_Prompt_ask | intros sel].
        apply keeps_tree_bind; [apply keeps_tree_emit | intros _].
        apply keeps_tree_show_class_controls.
      * from_tree_keeps_steps.
        apply (from_tree_write_module t i self); [exact Hself | now left |].
        cbn [CModule.classes]. apply Forall_app. split.
        -- apply Forall_forall. intros c Hc. now left.
        -- apply List.Forall_cons; [right; now eexists | apply List.Forall_nil].
      * from_tree_keeps_steps.
        destruct (CModule.remove_class self _) as [self'|e] eqn:Hrm;
          [|apply from_tree_keeps; [typeclasses eauto .. | apply keeps_tree_throw]].
        apply remove_class_sub in Hrm as [Hname Hsub].
        apply (from_tree_write_module t i self); [exact Hself | now left |].
        eapply Forall_impl; [exact Hsub|]. intros c Hc. now left.
      * from_tree_keeps_steps.
        apply (from_tree_write_module t i self); [exact Hself | |];
          cbn [CModule.classes CModule.name].
        -- right. now eexists.
        -- apply Forall_forall. intros c Hc. now left.
      * apply from_tree_keeps; [typeclasses eauto .. | apply keeps_tree_ret].
    + intros _ t' _.
      apply from_tree_bind_keeps;
        [typeclasses eauto .. | apply keeps_tree_emit | intros _]. apply IH.
Qed.

Lemma from_tree_show_module_controls (fuel : nat) (module : option nat)
    (t : CProject.t) :
  from_tree t menu_edits (show_module_controls fuel module).
Proof.
  apply from_tree_try; [typeclasses eauto .. | apply from_tree_module_menu |].
  intros t' _. apply from_tree_keeps; [typeclasses eauto .. | apply keeps_tree_ret].
Qed.

Lemma from_tree_project_menu_body (fuel : nat) (t : CProject.t) :
  from_tree t menu_edits (project_menu_body fuel).
Proof.
  unfold project_menu_body, console_print, clear_screen. from_tree_keeps_steps.
  apply from_tree_bind_keeps; [typeclasses eauto .. | | intros leave].
  { match goal with |- keeps_tree (if ?b then _ else _) => destruct b end;
      [apply keeps_tree_Confirm_ask | apply keeps_tree_ret]. }
  destruct leave;
    [apply from_tree_keeps; [typeclasses eauto .. | apply keeps_tree_ret]|].
  apply from_tree_get.
  apply from_tree_bind; [typeclasses eauto .. | |].
  - repeat match goal with
           | |- from_tree _ _ (if ?b then _ else _) => destruct b
           end.
    + from_tree_keeps_steps. apply from_tree_show_module_controls.
    + from_tree_keeps_steps. apply from_tree_set.
      split; [reflexivity|]. split; [now left|]. cbn [CProject.modules].
      apply Forall_app. split; [apply menu_edits_own_modules|].
      apply List.Forall_cons; [|apply List.Forall_nil].
      split; [right; now eexists | apply List.Forall_nil].
    + from_tree_keeps_steps.
      destruct (CProject.remove_module t _) as [t'|e] eqn:Hrm;
        [|apply from_tree_keeps; [typeclasses eauto .. | apply keeps_tree_throw]].
      apply remove_module_sub in Hrm as (Hname & Hns & Hsub).
      apply from_tree_set. split; [exact Hns|]. split; [now left|].
      pose proof (menu_edits_own_modules t) as Hown.
      rewrite Forall_forall in Hown, Hsub. apply Forall_forall.
      intros m Hm. now apply Hown, Hsub.
    + from_tree_keeps_steps. apply from_tree_set.
      split; [reflexivity|]. split; [right; now eexists|].
      exact (menu_edits_own_modules t).
    + apply from_tree_keeps; [typeclasses eauto .. | apply keeps_tree_ret].
  - intros _ t' _.
    apply from_tree_keeps; [typeclasses eauto ..|].
    apply keeps_tree_bind; [apply keeps_tree_emit | intros _; apply keeps_tree_ret].
Qed.

Lemma keeps_tree_project_menu_interrupted : keeps_tree project_menu_interrupted.
Proof.
  unfold project_menu_interrupted, console_print, clear_screen.
  apply keeps_tree_bind; [apply keeps_tree_emit | intros _].
  apply keeps_tree_bind; [apply keeps_tree_Confirm_ask | intros leave].
  destruct leave; [apply keeps_tree_ret|].
  apply keeps_tree_bind; [apply keeps_tree_emit | intros _; apply keeps_tree_ret].
Qed.

Lemma from_tree_show_project_controls (fuel : nat) (t : CProject.t) :
  from_tree t menu_edits (show_project_controls fuel).
Proof.
  revert t. induction fuel as [|fuel IH]; intros t; cbn [show_project_controls].
  - apply from_tree_keeps; [typeclasses eauto .. | apply keeps_tree_out_of_fuel].
  - apply from_tree_bind; [typeclasses eauto .. | |].
    + apply from_tree_try;
        [typeclasses eauto .. | apply from_tree_project_menu_body |].
      intros t' _. apply from_tree_keeps;
        [typeclasses eauto .. | apply keeps_tree_project_menu_interrupted].
    + intros [] t' _;
        [apply from_tree_keeps; [typeclasses eauto .. | apply keeps_tree_ret]
        | apply IH].
Qed.

End Menus.

(** X10.  What the menus can do to the project.  However long
    [show_project_controls] runs and whatever is typed, the namespace is
    as it was; the project name is the old one or a sanitized text; every
    module has the name of a module the project had, or a sanitized one;
    and every class is a class the project had, as it was, or an empty
    class with a sanitized name.  No menu adds or changes a function or a
    variable.  [show_module_controls] keeps within the same bounds, and
    [show_class_controls] changes nothing at all. *)
Theorem menus_only_add_empty_classes (fuel : nat) (s : Session) :
  menu_edits (tree s) (tree (show_project_controls fuel s).2)
  /\ (forall module,
        menu_edits (tree s) (tree (show_module_controls fuel module s).2))
  /\ (forall cppclass, tree (show_class_controls fuel cppclass s).2 = tree s).
Proof.
  split; [|split].
  - now apply from_tree_show_project_controls.
  - intros module. now apply from_tree_show_module_controls.
  - intros cppclass. apply keeps_tree_show_class_controls.
Qed.

Section ProgramNames.





End ProgramNames.


(** ** Fuel *)

Section Runs.

Lemma runs_weaken {A : Type} (n : nat) (m : IO A) : runs n true m -> runs n false m.
Proof.
  intros Hm s Hs. destruct (Hm s Hs) as (H1 & H2 & _).
  split; [exact H1|]. split; [exact H2 | discriminate].
Qed.

Lemma runs_less {A : Type} (n n' : nat) (b : bool) (m : IO A) :
  (n' <= n)%nat -> runs n b m -> runs n' b m.
Proof. intros Hn Hm s Hs. apply Hm. lia. Qed.

Lemma runs_bind {A B : Type} (n : nat) (b : bool) (m : IO A) (k : A -> IO B) :
  runs n false m -> (forall a, runs n b (k a)) -> runs n b (m ≫= k).
Proof.
  intros Hm Hk s Hs. unfold mbind, IO_bind.
  destruct (Hm s Hs) as (H1 & H2 & _).
  destruct (m s) as [[a|e| | |] s1]; cbn [fst snd] in *;
    try (split; [discriminate | split; [exact H2 | intros _ ? [=]]]);
    [|congruence].
  destruct (Hk a s1 ltac:(lia)) as (K1 & K2 & K3).
  split; [exact K1|]. split; [lia|]. intros Hb x Hx.
  specialize (K3 Hb x Hx). lia.
Qed.

Lemma runs_bind_strict {A B : Type} (n : nat) (m : IO A) (k : A -> IO B) :
  runs (S n) true m -> (forall a, runs n false (k a)) -> runs (S n) true (m ≫= k).
Proof.
  intros Hm Hk s Hs. unfold mbind, IO_bind.
  destruct (Hm s Hs) as (H1 & H2 & H3).
  destruct (m s) as [[a|e| | |] s1]; cbn [fst snd] in *;
    try (split; [discriminate | split; [exact H2 | intros _ ? [=]]]);
    [|congruence].
  specialize (H3 eq_refl a eq_refl).
  destruct (Hk a s1 ltac:(lia)) as (K1 & K2 & _).
  split; [exact K1|]. split; [lia|]. intros _ x _. lia.
Qed.

Lemma runs_try {A : Type} (n : nat) (b : bool) (body handler : IO A) :
  runs n b body -> runs n b handler ->
  runs n b (try_except_KeyboardInterrupt body handler).
Proof.
  intros Hb Hh s Hs. unfold try_except_KeyboardInterrupt.
  destruct (Hb s Hs) as (H1 & H2 & H3).
  destruct (body s) as [[a|[]| | |] s1]; cbn [fst snd] in *;
    try (split; [exact H1 | split; [exact H2 | exact H3]]).
  destruct (Hh s1 ltac:(lia)) as (K1 & K2 & K3).
  split; [exact K1|]. split; [lia|]. intros Hstrict x Hx.
  specialize (K3 Hstrict x Hx). lia.
Qed.

Lemma runs_ret {A : Type} (n : nat) (a : A) : runs n false (mret a : IO A).
Proof. intros s _. split; [discriminate|]. split; [reflexivity | discriminate]. Qed.

Lemma runs_throw {A : Type} (n : nat) (b : bool) (e : pyexc) : runs n b (throw e : IO A).
Proof.
  intros s _. split; [discriminate|]. split; [reflexivity | intros _ a [=]].
Qed.

Lemma runs_off_contract {A : Type} (n : nat) (b : bool) : runs n b (off_contract : IO A).
Proof.
  intros s _. split; [discriminate|]. split; [reflexivity | intros _ a [=]].
Qed.

Lemma runs_emit (n : nat) (e : event) : runs n false (emit e).
Proof. intros s _. split; [discriminate|]. split; [reflexivity | discriminate]. Qed.

Lemma runs_get_project (n : nat) : runs n false get_project.
Proof. intros s _. split; [discriminate|]. split; [reflexivity | discriminate]. Qed.

Lemma runs_set_project (n : nat) p : runs n false (set_project p).
Proof. intros s _. split; [discriminate|]. split; [reflexivity | discriminate]. Qed.

Lemma runs_read_module (n : nat) md : runs n false (read_module md).
Proof. intros s _. split; [discriminate|]. split; [reflexivity | discriminate]. Qed.

Lemma runs_int (n : nat) (s : string) : runs n false (int s).
Proof.
  unfold int. destruct s; [apply runs_throw|].
  destruct (digits_value _ _); [apply runs_ret | apply runs_throw].
Qed.

Lemma runs_next_reply (n : nat) prompt choices :
  runs n true (next_reply prompt choices).
Proof.
  intros s _. unfold next_reply. destruct (keyboard s) as [|r rest]; cbn.
  - split; [discriminate|]. split; [lia | intros _ a [=]].
  - split; [discriminate|]. split; [lia | intros _ a _; lia].
Qed.

Lemma runs_Prompt_ask (n : nat) prompt choices :
  runs n true (Prompt_ask prompt choices).
Proof.
  intros s _. unfold Prompt_ask, mbind, IO_bind, next_reply.
  destruct (keyboard s) as [|r rest]; cbn.
  - split; [discriminate|]. split; [lia | intros _ a [=]].
  - destruct r as [text|yes|]; [destruct choices as [allowed|];
      [case_bool_decide|] | |]; cbn;
      (split; [discriminate|]; split; [lia | intros _ a _; lia]).
Qed.

Lemma runs_Confirm_ask (n : nat) prompt : runs n true (Confirm_ask prompt).
Proof.
  intros s _. unfold Confirm_ask, mbind, IO_bind, next_reply.
  destruct (keyboard s) as [|r rest]; cbn.
  - split; [discriminate|]. split; [lia | intros _ a [=]].
  - destruct r as [text|yes|]; cbn;
      (split; [discriminate|]; split; [lia | intros _ a _; lia]).
Qed.

Lemma runs_write_module (n i : nat) m : runs n false (write_module i m).
Proof.
  unfold write_module. apply runs_bind; [apply runs_get_project | intros p].
  apply runs_set_project.
Qed.

End Runs.

Ltac runs_quiet :=
  first [ apply runs_emit | apply runs_int | apply runs_ret
        | apply runs_get_project | apply runs_set_project
        | apply runs_read_module | apply runs_write_module
        | apply runs_throw | apply runs_off_contract
        | apply runs_weaken, runs_Prompt_ask
        | apply runs_weaken, runs_Confirm_ask ].

Ltac runs_steps :=
  repeat match goal with
         | |- runs _ _ (emit _ ≫= _) => apply runs_bind; [apply runs_emit | intros ?]
         | |- runs _ _ (int _ ≫= _) => apply runs_bind; [apply runs_int | intros ?]
         | |- runs _ _ (get_project ≫= _) =>
             apply runs_bind; [apply runs_get_project | intros ?]
         | |- runs _ false (Prompt_ask _ _ ≫= _) =>
             apply runs_bind; [apply runs_weaken, runs_Prompt_ask | intros ?]
         | |- runs (S _) true (Prompt_ask _ _ ≫= _) =>
             apply runs_bind_strict; [apply runs_Prompt_ask | intros ?]
         end.

Section RunsMenus.

Lemma runs_render_project_table (n : nat) : runs n false render_project_table.
Proof.
  unfold render_project_table, console_print. runs_steps. apply runs_emit.
Qed.

Lemma runs_render_module_table (n : nat) m : runs n false (render_module_table m).
Proof.
  unfold render_module_table, console_print.
  destruct m; [runs_steps; apply runs_emit | apply runs_throw].
Qed.

Lemma runs_render_class_table (n : nat) c : runs n false (render_class_table c).
Proof.
  unfold render_class_table, console_print. destruct c as [c|]; [|apply runs_throw].
  destruct (class_table c); [runs_steps; apply runs_emit | apply runs_throw].
Qed.

Lemma runs_class_menu (fuel : nat) c : runs fuel true (class_menu fuel c).
Proof.
  induction fuel as [|fuel IH]; [intros s Hs; lia|]. cbn [class_menu].
  unfold console_print, clear_screen.
  apply runs_bind; [apply runs_render_class_table | intros _].
  runs_steps.
  match goal with |- runs _ _ (if ?b then _ else _) => destruct b end;
    [apply runs_ret|].
  runs_steps. apply runs_weaken, IH.
Qed.

Lemma runs_show_class_controls (fuel : nat) c :
  runs fuel false (show_class_controls fuel c).
Proof.
  apply runs_try; [apply runs_weaken, runs_class_menu | apply runs_ret].
Qed.

Lemma runs_module_menu (fuel : nat) module : runs fuel true (module_menu fuel module).
Proof.
  induction fuel as [|fuel IH]; [intros s Hs; lia|]. cbn [module_menu].
  unfold console_print, clear_screen.
  apply runs_bind; [apply runs_read_module | intros current].
  apply runs_bind; [apply runs_render_module_table | intros _].
  destruct module as [i|]; [|apply runs_throw].
  destruct current as [self|]; [|apply runs_throw].
  runs_steps.
  match goal with |- runs _ _ (if ?b then _ else _) => destruct b end;
    [apply runs_ret|].
  apply runs_bind; [|intros _; runs_steps; apply runs_weaken, IH].
  repeat match goal with
         | |- runs _ _ (if ?b then _ else _) => destruct b
         end; runs_steps; try runs_quiet.
  - apply runs_show_class_controls.
  - destruct (CModule.remove_class self _); runs_quiet.
Qed.

Lemma runs_show_module_controls (fuel : nat) module :
  runs fuel false (show_module_controls fuel module).
Proof.
  apply runs_try; [apply runs_weaken, runs_module_menu | apply runs_ret].
Qed.

Lemma runs_project_menu_body (fuel : nat) :
  runs (S fuel) true (project_menu_body fuel).
Proof.
  unfold project_menu_body, console_print, clear_screen.
  apply runs_bind; [apply runs_render_project_table | intros _].
  runs_steps.
  apply runs_bind; [|intros leave].
  { match goal with |- runs _ _ (if ?b then _ else _) => destruct b end;
      runs_quiet. }
  destruct leave; [apply runs_ret|]. runs_steps.
  apply runs_bind; [|intros _; runs_steps; apply runs_ret].
  repeat match goal with
         | |- runs _ _ (if ?b then _ else _) => destruct b
         end; runs_steps; try runs_quiet.
  - apply runs_show_module_controls.
  - destruct (CProject.remove_module _ _); runs_quiet.
Qed.

Lemma runs_project_menu_interrupted (n : nat) :
  runs (S n) true project_menu_interrupted.
Proof.
  unfold project_menu_interrupted, console_print, clear_screen. runs_steps.
  apply runs_bind_strict; [apply runs_Confirm_ask | intros leave].
  destruct leave; [apply runs_ret|]. runs_steps. apply runs_ret.
Qed.

Lemma runs_show_project_controls (fuel : nat) :
  runs fuel false (show_project_controls fuel).
Proof.
  induction fuel as [|fuel IH]; [intros s Hs; lia|].
  cbn [show_project_controls]. apply runs_weaken, runs_bind_strict.
  - apply runs_try;
      [apply runs_project_menu_body | apply runs_project_menu_interrupted].
  - intros []; [apply runs_ret | exact IH].
Qed.

Lemma runs_program (fuel : nat) : runs fuel false (program fuel).
Proof.
  unfold program, main, console_print, clear_screen.
  apply runs_bind; [|intros _; apply runs_emit].
  apply runs_try; [|apply runs_ret].
  runs_steps. apply runs_bind; [apply runs_set_project | intros _].
  apply runs_show_project_controls.
Qed.

End RunsMenus.

(** X12.  The loops of the menus run on fuel, one unit an iteration, and an
    iteration that comes round again has taken a reply.  With more fuel
    than there are replies to come, neither [show_project_controls] nor
    the program stops for lack of fuel: each returns, raises, waits at a
    prompt, or meets a reply that the prompt at hand does not accept. *)
Theorem session_has_fuel_enough (fuel : nat) (s : Session) :
  (length (keyboard s) < fuel)%nat ->
  (show_project_controls fuel s).1 <> OutOfFuel
  /\ (program fuel s).1 <> OutOfFuel.
Proof.
  intros Hs. split.
  - now apply (runs_show_project_controls fuel s).
  - now apply (runs_program fuel s).
Qed.

Lemma session_has_fuel_enough_witness :
  let s := {| tree := seeded "app"; screen := [];
              keyboard := [Typed "app"; Typed "6"; CtrlC; Decided true] |} in
  (show_project_controls 5 s).1 <> OutOfFuel
  /\ (program 5 s).1 <> OutOfFuel.
Proof.
  intros s. apply (session_has_fuel_enough 5 s). simpl. lia.
Defined.

(** ** What it takes to leave *)

Section Reads.

Lemma reads_still {A : Type} (ret : A -> bool) (m : IO A) :
  (forall s, keyboard (m s).2 = keyboard s
             /\ (m s).1 <> Raises KeyboardInterrupt
             /\ forall a, (m s).1 = Returns a -> ret a = false) ->
  reads ret m.
Proof.
  intros Hm s. destruct (Hm s) as (Hk & Hki & Hret). exists [].
  split; [now rewrite Hk|]. split; [intros H; now destruct Hki|].
  intros a Ha Hmark. rewrite (Hret a Ha) in Hmark. discriminate.
Qed.

Lemma reads_ret {A : Type} (ret : A -> bool) (a : A) :
  ret a = false -> reads ret (mret a : IO A).
Proof.
  intros Ha. apply reads_still. intros s. split; [reflexivity|].
  split; [discriminate|]. now intros a' [= <-].
Qed.

Lemma reads_throw {A : Type} (ret : A -> bool) (e : pyexc) :
  e <> KeyboardInterrupt -> reads ret (throw e : IO A).
Proof.
  intros He. apply reads_still. intros s. split; [reflexivity|].
  split; [intros [= ->]; now destruct He | intros a [=]].
Qed.

Lemma reads_off_contract {A : Type} (ret : A -> bool) :
  reads ret (off_contract : IO A).
Proof.
  apply reads_still. intros s. split; [reflexivity|].
  split; [discriminate | intros a [=]].
Qed.

Lemma reads_out_of_fuel {A : Type} (ret : A -> bool) :
  reads ret (out_of_fuel : IO A).
Proof.
  apply reads_still. intros s. split; [reflexivity|].
  split; [discriminate | intros a [=]].
Qed.

Lemma reads_emit (e : event) : reads unmarked (emit e).
Proof.
  apply reads_still. intros s. split; [reflexivity|].
  split; [discriminate | reflexivity].
Qed.

Lemma reads_get_project : reads unmarked get_project.
Proof.
  apply reads_still. intros s. split; [reflexivity|].
  split; [discriminate | reflexivity].
Qed.

Lemma reads_set_project p : reads unmarked (set_project p).
Proof.
  apply reads_still. intros s. split; [reflexivity|].
  split; [discriminate | reflexivity].
Qed.

Lemma reads_read_module md : reads unmarked (read_module md).
Proof.
  apply reads_still. intros s. split; [reflexivity|].
  split; [discriminate | reflexivity].
Qed.

Lemma reads_int (s : string) : reads unmarked (int s).
Proof.
  unfold int. destruct s; [now apply reads_throw|].
  destruct (digits_value _ _); [now apply reads_ret | now apply reads_throw].
Qed.

Lemma reads_bind_marked {A B : Type} (retA : A -> bool) (ret : B -> bool)
    (m : IO A) (k : A -> IO B) :
  reads retA m ->
  (forall a, retA a = true -> exists b, k a = mret b) ->
  (forall a, retA a = false -> reads ret (k a)) ->
  reads ret (m ≫= k).
Proof.
  intros Hm Hmarked Hk s. unfold mbind, IO_bind.
  destruct (Hm s) as (pre1 & E1 & KI1 & R1).
  destruct (m s) as [[a|e| | |] s1]; cbn [fst snd] in *.
  - destruct (retA a) eqn:Ha.
    + destruct (Hmarked a Ha) as [b ->]. exists pre1. split; [exact E1|].
      split; [discriminate|]. intros b' _ _. exact (R1 a eq_refl Ha).
    + destruct (Hk a Ha s1) as (pre2 & E2 & KI2 & R2). exists (pre1 ++ pre2).
      split; [rewrite <- app_assoc, <- E2; exact E1|]. split.
      * intros H. destruct (KI2 H) as [p ->]. exists (pre1 ++ p).
        now rewrite app_assoc.
      * intros b Hb Hmark. destruct (R2 b Hb Hmark) as [p ->].
        exists (pre1 ++ p). now rewrite app_assoc.
  - exists pre1. split; [exact E1|].
    split; [intros [= ->]; now apply KI1 | intros b [=]].
  - exists pre1. split; [exact E1|]. split; [discriminate | intros b [=]].
  - exists pre1. split; [exact E1|]. split; [discriminate | intros b [=]].
  - exists pre1. split; [exact E1|]. split; [discriminate | intros b [=]].
Qed.

Lemma reads_bind {A B : Type} (ret : B -> bool) (m : IO A) (k : A -> IO B) :
  reads unmarked m -> (forall a, reads ret (k a)) -> reads ret (m ≫= k).
Proof.
  intros Hm Hk. apply (reads_bind_marked unmarked); [exact Hm | discriminate|].
  intros a _. apply Hk.
Qed.

Lemma reads_try {A : Type} (ret : A -> bool) (body handler : IO A) :
  reads ret body -> reads ret handler ->
  reads ret (try_except_KeyboardInterrupt body handler).
Proof.
  intros Hb Hh s. unfold try_except_KeyboardInterrupt.
  destruct (Hb s) as (pre1 & E1 & KI1 & R1).
  destruct (body s) as [[a|[]| | |] s1]; cbn [fst snd] in *;
    try (exists pre1; split; [exact E1 | split; [exact KI1 | exact R1]]).
  destruct (Hh s1) as (pre2 & E2 & KI2 & R2). exists (pre1 ++ pre2).
  split; [rewrite <- app_assoc, <- E2; exact E1|]. split.
  - intros H. destruct (KI2 H) as [p ->]. exists (pre1 ++ p).
    now rewrite app_assoc.
  - intros b Hb' Hmark. destruct (R2 b Hb' Hmark) as [p ->].
    exists (pre1 ++ p). now rewrite app_assoc.
Qed.

Lemma reads_Prompt_ask prompt choices : reads unmarked (Prompt_ask prompt choices).
Proof.
  intros s. unfold Prompt_ask, mbind, IO_bind, next_reply.
  destruct (keyboard s) as [|r rest]; cbn.
  - exists []. split; [reflexivity|]. split; [discriminate | intros a [=]].
  - exists [r]. destruct r as [text|yes|]; [destruct choices as [allowed|];
      [case_bool_decide|] | |]; cbn;
      (split; [reflexivity|]; split;
       [try discriminate; intros _; now exists [] | discriminate]).
Qed.

Lemma reads_Confirm_ask prompt : reads (fun yes : bool => yes) (Confirm_ask prompt).
Proof.
  intros s. unfold Confirm_ask, mbind, IO_bind, next_reply.
  destruct (keyboard s) as [|r rest]; cbn.
  - exists []. split; [reflexivity|]. split; [discriminate | intros a [=]].
  - exists [r]. destruct r as [text|yes|]; cbn;
      (split; [reflexivity|]; split;
       [try discriminate; intros _; now exists []|]).
    + intros a [=].
    + intros a [= <-] ->. now exists [].
    + intros a [=].
Qed.

Lemma member_rows_not_interrupted c all_fns all_vars count i fn_type var_type table :
  member_rows c all_fns all_vars count i fn_type var_type table
  <> Threw KeyboardInterrupt.
Proof.
  revert i fn_type var_type table.
  induction count as [|count IH]; intros i fn_type var_type table;
    cbn [member_rows]; [discriminate|].
  destruct (member_cell all_fns _ i fn_type) as [fn [fn_type'|]];
    destruct (member_cell all_vars _ i var_type) as [var [var_type'|]];
    try discriminate.
  apply IH.
Qed.

End Reads.

Ltac reads_steps :=
  repeat match goal with
         | |- reads _ (emit _ ≫= _) => apply reads_bind; [apply reads_emit | intros ?]
         | |- reads _ (int _ ≫= _) => apply reads_bind; [apply reads_int | intros ?]
         | |- reads _ (get_project ≫= _) =>
             apply reads_bind; [apply reads_get_project | intros ?]
         | |- reads _ (Prompt_ask _ _ ≫= _) =>
             apply reads_bind; [apply reads_Prompt_ask | intros ?]
         end.

Ltac reads_quiet :=
  first [ apply reads_emit | apply reads_int | apply reads_get_project
        | apply reads_set_project | apply reads_read_module
        | apply reads_off_contract | apply reads_out_of_fuel
        | apply reads_Prompt_ask
        | apply reads_ret; reflexivity
        | apply reads_throw; discriminate ].

Section ReadsMenus.

Lemma reads_write_module (i : nat) m : reads unmarked (write_module i m).
Proof.
  unfold write_module. reads_steps. apply reads_set_project.
Qed.

Lemma reads_render_project_table : reads unmarked render_project_table.
Proof.
  unfold render_project_table, console_print. reads_steps. apply reads_emit.
Qed.

Lemma reads_render_module_table m : reads unmarked (render_module_table m).
Proof.
  unfold render_module_table, console_print.
  destruct m; [reads_steps; apply reads_emit | reads_quiet].
Qed.

Lemma reads_render_class_table c : reads unmarked (render_class_table c).
Proof.
  unfold render_class_table, console_print. destruct c as [c|]; [|reads_quiet].
  destruct (class_table c) as [table|e] eqn:Htable;
    [reads_steps; apply reads_emit|].
  apply reads_throw. intros ->. revert Htable. apply member_rows_not_interrupted.
Qed.

Lemma reads_class_menu (fuel : nat) c : reads unmarked (class_menu fuel c).
Proof.
  induction fuel as [|fuel IH]; [apply reads_out_of_fuel|]. cbn [class_menu].
  unfold console_print, clear_screen.
  apply reads_bind; [apply reads_render_class_table | intros _].
  reads_steps.
  match goal with |- reads _ (if ?b then _ else _) => destruct b end;
    [reads_quiet|].
  reads_steps. apply IH.
Qed.

Lemma reads_show_class_controls (fuel : nat) c :
  reads unmarked (show_class_controls fuel c).
Proof.
  apply reads_try; [apply reads_class_menu | reads_quiet].
Qed.

Lemma reads_module_menu (fuel : nat) module : reads unmarked (module_menu fuel module).
Proof.
  induction fuel as [|fuel IH]; [apply reads_out_of_fuel|]. cbn [module_menu].
  unfold console_print, clear_screen.
  apply reads_bind; [apply reads_read_module | intros current].
  apply reads_bind; [apply reads_render_module_table | intros _].
  destruct module as [i|]; [|reads_quiet].
  destruct current as [self|]; [|reads_quiet].
  reads_steps.
  match goal with |- reads _ (if ?b then _ else _) => destruct b end;
    [reads_quiet|].
  apply reads_bind; [|intros _; reads_steps; apply IH].
  repeat match goal with
         | |- reads _ (if ?b then _ else _) => destruct b
         end; reads_steps;
    first [ reads_quiet
          | apply reads_write_module
          | apply reads_show_class_controls
          | destruct (CModule.remove_class self _);
            [apply reads_write_module | reads_quiet] ].
Qed.

Lemma reads_show_module_controls (fuel : nat) module :
  reads unmarked (show_module_controls fuel module).
Proof.
  apply reads_try; [apply reads_module_menu | reads_quiet].
Qed.

Lemma reads_project_menu_body (fuel : nat) : reads is_Return (project_menu_body fuel).
Proof.
  unfold project_menu_body, console_print, clear_screen.
  apply reads_bind; [apply reads_render_project_table | intros _].
  reads_steps.
  apply (reads_bind_marked (fun yes : bool => yes)).
  - match goal with |- reads _ (if ?b then _ else _) => destruct b end;
      [apply reads_Confirm_ask | now apply reads_ret].
  - intros leave ->. now exists Return.
  - intros leave ->. reads_steps.
    apply reads_bind; [|intros _; reads_steps; now apply reads_ret].
    repeat match goal with
           | |- reads _ (if ?b then _ else _) => destruct b
           end; reads_steps;
      first [ reads_quiet
            | apply reads_show_module_controls
            | destruct (CProject.remove_module _ _); reads_quiet ].
Qed.

(** The handler of the project menu asks once. *)
Lemma project_menu_interrupted_asks_once (s : Session) :
  let r := project_menu_interrupted s in
  exists pre,
    keyboard s = pre ++ keyboard r.2
    /\ (r.1 = Raises KeyboardInterrupt -> pre = [CtrlC])
    /\ (r.1 = Returns Return -> pre = [Decided true]).
Proof.
  unfold project_menu_interrupted, console_print, clear_screen, Confirm_ask,
    next_reply, emit, mbind, IO_bind, mret, IO_ret.
  cbn. destruct (keyboard s) as [|[text|[]|] rest]; cbn.
  - exists []. split; [reflexivity|]. split; discriminate.
  - exists [Typed text]. split; [reflexivity|]. split; discriminate.
  - exists [Decided true]. split; [reflexivity|]. split; [discriminate | reflexivity].
  - exists [Decided false]. split; [reflexivity|]. split; discriminate.
  - exists [CtrlC]. split; [reflexivity|]. split; [reflexivity | discriminate].
Qed.

Lemma project_menu_iteration (fuel : nat) (s : Session) :
  let r := try_except_KeyboardInterrupt (project_menu_body fuel)
             project_menu_interrupted s in
  exists pre,
    keyboard s = pre ++ keyboard r.2
    /\ (r.1 = Returns Return -> exists pre', pre = pre' ++ [Decided true])
    /\ (r.1 = Raises KeyboardInterrupt -> exists pre', pre = pre' ++ [CtrlC; CtrlC]).
Proof.
  cbv zeta. unfold try_except_KeyboardInterrupt.
  destruct (reads_project_menu_body fuel s) as (pre1 & E1 & KI1 & R1).
  destruct (project_menu_body fuel s) as [[how|[]| | |] s1]; cbn [fst snd] in *;
    try (exists pre1; split; [exact E1|];
         split; [try discriminate; intros [= ->]; now apply (R1 Return)
                | discriminate]).
  destruct (project_menu_interrupted_asks_once s1) as (pre2 & E2 & KI2 & R2).
  destruct (KI1 eq_refl) as [p ->]. exists ((p ++ [CtrlC]) ++ pre2).
  split; [rewrite <- (app_assoc _ pre2), <- E2; exact E1|]. split.
  - intros H. rewrite (R2 H). now exists (p ++ [CtrlC]).
  - intros H. rewrite (KI2 H). exists p. now rewrite <- app_assoc.
Qed.

Lemma show_project_controls_leaves (fuel : nat) (s : Session) :
  let r := show_project_controls fuel s in
  exists pre,
    keyboard s = pre ++ keyboard r.2
    /\ (r.1 = Returns tt -> exists pre', pre = pre' ++ [Decided true])
    /\ (r.1 = Raises KeyboardInterrupt -> exists pre', pre = pre' ++ [CtrlC; CtrlC]).
Proof.
  cbv zeta. revert s. induction fuel as [|fuel IH]; intros s.
  - exists []. split; [reflexivity|]. split; discriminate.
  - cbn [show_project_controls]. unfold mbind, IO_bind.
    destruct (project_menu_iteration fuel s) as (pre1 & E1 & R1 & KI1).
    destruct (try_except_KeyboardInterrupt _ _ s) as [[[]|e| | |] s1];
      cbn [fst snd] in *.
    + exists pre1. split; [exact E1|]. split; [intros _; now apply R1 | discriminate].
    + destruct (IH s1) as (pre2 & E2 & R2 & KI2). exists (pre1 ++ pre2).
      split; [rewrite <- app_assoc, <- E2; exact E1|]. split.
      * intros H. destruct (R2 H) as [p ->]. exists (pre1 ++ p).
        now rewrite app_assoc.
      * intros H. destruct (KI2 H) as [p ->]. exists (pre1 ++ p).
        now rewrite app_assoc.
    + exists pre1. split; [exact E1|].
      split; [discriminate | intros [= ->]; now apply KI1].
    + exists pre1. split; [exact E1|]. split; discriminate.
    + exists pre1. split; [exact E1|]. split; discriminate.
    + exists pre1. split; [exact E1|]. split; discriminate.
Qed.

End ReadsMenus.

(** X13.  Leaving takes a confirmation or an interrupt.
    [show_project_controls] takes its replies from the front of the
    keyboard, in order.  It returns only straight after a confirmed exit,
    and lets a [KeyboardInterrupt] through only when Ctrl-C has been
    pressed twice in a row, the second time at the exit question.  The
    program never ends on [KeyboardInterrupt]; it returns only after a
    Ctrl-C at the name prompt, a confirmed exit, or two Ctrl-C in a row. *)
Theorem leaving_takes_a_confirmation_or_an_interrupt (fuel : nat) (s : Session) :
  (let r := show_project_controls fuel s in
   exists pre,
     keyboard s = pre ++ keyboard r.2
     /\ (r.1 = Returns tt -> exists pre', pre = pre' ++ [Decided true])
     /\ (r.1 = Raises KeyboardInterrupt ->
         exists pre', pre = pre' ++ [CtrlC; CtrlC]))
  /\ (let r := program fuel s in
      r.1 <> Raises KeyboardInterrupt
      /\ exists pre,
           keyboard s = pre ++ keyboard r.2
           /\ (r.1 = Returns tt ->
               pre = [CtrlC]
               \/ (exists pre', pre = pre' ++ [Decided true])
               \/ (exists pre', pre = pre' ++ [CtrlC; CtrlC]))).
Proof.
  split; [apply show_project_controls_leaves|]. cbv zeta.
  unfold program, main, console_print, clear_screen, emit, Prompt_ask,
    next_reply, set_project, try_except_KeyboardInterrupt, mbind, IO_bind,
    mret, IO_ret.
  cbn. destruct (keyboard s) as [|[name|yes|] rest]; cbn;
    try (split; [discriminate|]).
  - exists []. split; [reflexivity | discriminate].
  - match goal with
    | |- context [show_project_controls fuel ?s1] =>
        destruct (show_project_controls_leaves fuel s1) as (pre & E & R & KI);
        destruct (show_project_controls fuel s1) as [[[]|[]| | |] s2]
    end; cbn [fst snd keyboard] in *;
      (split; [discriminate|]); exists (Typed name :: pre);
      (split; [now rewrite E|]);
      try discriminate.
    + intros _. right. left. destruct (R eq_refl) as [p ->].
      now exists (Typed name :: p).
    + intros _. right. right. destruct (KI eq_refl) as [p ->].
      now exists (Typed name :: p).
  - exists [Decided yes]. split; [reflexivity | discriminate].
  - exists [CtrlC]. split; [reflexivity|]. intros _. now left.
Qed.

(** ** What the menus can raise *)

Section Steady.

Context (I : CProject.t -> Prop).



Lemma steady_still {A : Type} (t : CProject.t) (m : IO A) :
  I t -> steady t (fun t' => t' = t) m -> steady t I m.
Proof.
  intros HI Hm s Hs. destruct (Hm s Hs) as [Ht He]. split; [now rewrite Ht | exact He].
Qed.


Lemma steady_off_contract {A : Type} (t : CProject.t) :
  I t -> steady t I (off_contract : IO A).
Proof. intros HI s Hs. split; [cbn; now rewrite Hs | intros e [=]]. Qed.











End Steady.


Section Choices.







End Choices.

Section SteadyMore.

Context (I : CProject.t -> Prop).




End SteadyMore.



Section SteadyMenus.











End SteadyMenus.



